(** * busadapter: the framed request/response protocol of the USB-I2C bridge

    A shallow embedding of [busadapter.py].  The serial port is an external
    collaborator: it is an interface ([Serial]) with a scripted instance
    ([ScriptPort]) that records every I/O event.  Python exceptions are
    values of [exn]; a method is a function from the port state to an
    outcome and the next port state. *)

From Stdlib Require Import ZArith List Bool String Ascii Lia.
From Stdlib Require Import Strings.Byte DecimalString.
Import ListNotations.

Local Open Scope string_scope.
Local Open Scope list_scope.
Local Open Scope Z_scope.

(** ** Module-level constants *)

Definition CMD_VERSION : Z := 0.
Definition CMD_INIT : Z := 1.
Definition CMD_GET_BUS_TYPE : Z := 2.
Definition CMD_WRITE : Z := 3.
Definition CMD_READ : Z := 4.
Definition CMD_TRANSACTION : Z := 5.
Definition CMD_SET_PIN_MODE : Z := 7.
Definition CMD_DIGITAL_WRITE : Z := 8.
Definition CMD_DEBUG1 : Z := 51.
Definition CMD_DEBUG2 : Z := 52.
Definition CMD_DEBUG3 : Z := 53.

Definition MODE_I2C_MASTER : Z := 1.

Definition RESPONSE_OK : Z := 0.
Definition RESPONSE_ERROR : Z := 1.
Definition RESPONSE_CMD_UNAVAILABLE : Z := 2.
Definition RESPONSE_WRONG_COMMAND : Z := 3.
Definition RESPONSE_BAD_PARAMETERS : Z := 4.
Definition RESPONSE_SHORT_WRITE : Z := 5.
Definition RESPONSE_NACK_ON_ADDRESS : Z := 6.
Definition RESPONSE_NACK_ON_DATA : Z := 7.
Definition RESPONSE_DATA_TOO_LONG : Z := 8.
Definition RESPONSE_OTHER_ERROR : Z := 9.

Definition PIN_MODE_DIGITAL_OUT : Z := 1.
Definition PIN_STATUS_HIGH : Z := 16.
Definition PIN_STATUS_LOW : Z := 17.
Definition PIN_STATUS_TOGGLE : Z := 18.

(** ** Python values *)

(** A [bytes] object. *)
Definition bytes := list byte.

(** Indexing a [bytes] object yields an [int]. *)
Definition int_of_byte (b : byte) : Z := Z.of_N (Byte.to_N b).

(** The one-byte encoding of an [int], when it has one. *)
Definition byte_of_int (z : Z) : option byte :=
  if z <? 0 then None else Byte.of_N (Z.to_N z).

Definition len {A : Type} (l : list A) : Z := Z.of_nat (List.length l).

(** The hashable values a caller can hand to [set_pin_mode] and
    [digital_write]: strings, booleans and integers. *)
Inductive pyval : Type :=
| PStr (s : string)
| PBool (b : bool)
| PInt (z : Z).

(** [bool] is a subclass of [int]: [True == 1] and [False == 0], with equal
    hashes, so a dict cannot tell them apart. *)
Definition int_of_bool (b : bool) : Z := if b then 1 else 0.

(** Python's [==] on these values, as a dict uses it to compare keys. *)
Definition py_eq (a b : pyval) : bool :=
  match a, b with
  | PStr s, PStr t => String.eqb s t
  | PBool x, PBool y => Bool.eqb x y
  | PInt x, PInt y => Z.eqb x y
  | PBool x, PInt y | PInt y, PBool x => Z.eqb (int_of_bool x) y
  | _, _ => false
  end.

(** A dict literal, as its items in source order; [dict_get] is [d[k]],
    [None] standing for the [KeyError]. *)
Fixpoint dict_get {K V : Type} (eqb : K -> K -> bool) (d : list (K * V)) (k : K)
  : option V :=
  match d with
  | [] => None
  | (k', v) :: d' => if eqb k' k then Some v else dict_get eqb d' k
  end.

(** [str(n)] of a non-negative [int], as an f-string renders it. *)
Definition str_of_nat (n : nat) : string := NilZero.string_of_uint (Nat.to_uint n).

Definition str_of_int (z : Z) : string :=
  if z <? 0 then ("-" ++ str_of_nat (Z.to_nat (- z)))%string
  else str_of_nat (Z.to_nat z).

(** ** Exceptions *)

Inductive exn : Type :=
| Timeout
| BusError (msg : string)
| ProtocolError
| ValueError (template : string) (args : list pyval)
| KeyError (key : Z)
| IndexError
| AssertionError (code : Z)
| StructError.

(** The class of a raised exception, which is what an [except] clause
    dispatches on. *)
Inductive exn_class : Type :=
| ClsTimeout | ClsBusError | ClsProtocolError | ClsValueError
| ClsKeyError | ClsIndexError | ClsAssertionError | ClsStructError.

Definition class_of (e : exn) : exn_class :=
  match e with
  | Timeout => ClsTimeout
  | BusError _ => ClsBusError
  | ProtocolError => ClsProtocolError
  | ValueError _ _ => ClsValueError
  | KeyError _ => ClsKeyError
  | IndexError => ClsIndexError
  | AssertionError _ => ClsAssertionError
  | StructError => ClsStructError
  end.

(** The outcome of running a piece of the driver: a value, a raised
    exception, or a loop that was cut off by the model's fuel. *)
Inductive result (A : Type) : Type :=
| Return (a : A)
| Raise (e : exn)
| OutOfFuel.

Arguments Return {A} a.
Arguments Raise {A} e.
Arguments OutOfFuel {A}.

Definition rbind {A B : Type} (r : result A) (k : A -> result B) : result B :=
  match r with
  | Return a => k a
  | Raise e => Raise e
  | OutOfFuel => OutOfFuel
  end.

(** ** [BusError.__init__] *)

(** The status-to-message dict of [BusError.__init__]. *)
Definition bus_error_messages : list (Z * string) :=
  [ (RESPONSE_SHORT_WRITE, "short write");
    (RESPONSE_NACK_ON_ADDRESS, "nack on address");
    (RESPONSE_NACK_ON_DATA, "nack on data");
    (RESPONSE_DATA_TOO_LONG, "data too long for transmit buffer");
    (RESPONSE_OTHER_ERROR, "other error") ].

(** [BusError(msg)]: an [int] is looked up in the dict, and the lookup
    raises [KeyError] in place of the constructor returning. *)
Definition BusError__init__ (msg : Z + string) : result exn :=
  match msg with
  | inl code =>
      match dict_get Z.eqb bus_error_messages code with
      | Some m => Return (BusError m)
      | None => Raise (KeyError code)
      end
  | inr m => Return (BusError m)
  end.

(** ** [struct.pack] *)

Inductive fmt_code : Type :=
| fmt_B   (* unsigned char *)
| fmt_H.  (* unsigned short, little-endian *)

Definition pack_field (c : fmt_code) (v : Z) : result bytes :=
  match c with
  | fmt_B =>
      match byte_of_int v with
      | Some b => Return [b]
      | None => Raise StructError
      end
  | fmt_H =>
      if (0 <=? v) && (v <=? 65535) then
        match byte_of_int (Z.land v 255), byte_of_int (Z.shiftr v 8) with
        | Some lo, Some hi => Return [lo; hi]
        | _, _ => Raise StructError
        end
      else Raise StructError
  end.

Fixpoint pack (fmt : list fmt_code) (args : list Z) : result bytes :=
  match fmt, args with
  | [], [] => Return []
  | c :: fmt', v :: args' =>
      rbind (pack_field c v) (fun hd =>
      rbind (pack fmt' args') (fun tl => Return (hd ++ tl)))
  | _, _ => Raise StructError
  end.

(** ** The serial port *)

(** What the driver asks of [serial.Serial]: [read(n)] gives up to [n]
    bytes, none on a timeout. *)
Class Serial (Port : Type) : Type := {
  sp_read : Port -> Z -> bytes * Port;
  sp_write : Port -> bytes -> Port;
  sp_setDTR : Port -> bool -> Port;
  sp_setRTS : Port -> bool -> Port
}.

(** The contract of [read]: never more bytes than were asked for. *)
Definition read_bounded {Port : Type} `{Serial Port} : Prop :=
  forall (p : Port) (n : Z), 0 <= n -> len (fst (sp_read p n)) <= n.

(** A scripted port.  [pending] lists what arrives in each successive read
    window, an empty chunk being a window in which nothing arrives; [log]
    records every call made on the port, oldest first. *)
Inductive io_event : Type :=
| EvRead (n : Z) (got : bytes)
| EvWrite (data : bytes)
| EvSetDTR (level : bool)
| EvSetRTS (level : bool).

Record ScriptPort : Type := mkPort {
  pending : list bytes;
  log : list io_event
}.

(** What stays pending after a read took part of the first chunk: the rest
    of that chunk, if any, is still first in line. *)
Definition requeue (left : bytes) (rest : list bytes) : list bytes :=
  match left with
  | [] => rest
  | _ :: _ => left :: rest
  end.

Definition script_read (p : ScriptPort) (n : Z) : bytes * ScriptPort :=
  match pending p with
  | [] => ([], mkPort [] (log p ++ [EvRead n []]))
  | chunk :: rest =>
      let got := firstn (Z.to_nat n) chunk in
      let left := skipn (Z.to_nat n) chunk in
      (got, mkPort (requeue left rest) (log p ++ [EvRead n got]))
  end.

#[global] Instance ScriptSerial : Serial ScriptPort := {
  sp_read := script_read;
  sp_write := fun p data => mkPort (pending p) (log p ++ [EvWrite data]);
  sp_setDTR := fun p b => mkPort (pending p) (log p ++ [EvSetDTR b]);
  sp_setRTS := fun p b => mkPort (pending p) (log p ++ [EvSetRTS b])
}.

(** The bytes handed to [write] so far, in order. *)
Fixpoint written (l : list io_event) : bytes :=
  match l with
  | [] => []
  | EvWrite d :: l' => d ++ written l'
  | _ :: l' => written l'
  end.

(** The number of [read] calls made so far. *)
Fixpoint reads (l : list io_event) : nat :=
  match l with
  | [] => O
  | EvRead _ _ :: l' => S (reads l')
  | _ :: l' => reads l'
  end.

(** ** Methods as state-passing computations *)

(** A method body: it runs on the port and leaves an outcome and the port as
    it is afterwards (also when it raises). *)
Definition M (St A : Type) : Type := St -> result A * St.

Definition ret {St A : Type} (a : A) : M St A := fun p => (Return a, p).

Definition raise {St A : Type} (e : exn) : M St A := fun p => (Raise e, p).

Definition lift {St A : Type} (r : result A) : M St A := fun p => (r, p).

Definition bind {St A B : Type} (m : M St A) (k : A -> M St B) : M St B :=
  fun p =>
    match m p with
    | (Return a, p') => k a p'
    | (Raise e, p') => (Raise e, p')
    | (OutOfFuel, p') => (OutOfFuel, p')
    end.

Declare Scope py_scope.
Delimit Scope py_scope with py.

Notation "x <- c1 ;; c2" := (bind c1 (fun x => c2))
  (at level 100, c1 at next level, right associativity) : py_scope.
Notation "' pat <- c1 ;; c2" := (bind c1 (fun x => match x with pat => c2 end))
  (at level 100, pat pattern, c1 at next level, right associativity) : py_scope.
Notation "c1 ;; c2" := (bind c1 (fun _ => c2))
  (at level 100, right associativity) : py_scope.

(** [raise BusError(msg)]: the constructor runs first, and what it raises
    propagates in place of the [BusError]. *)
Definition raise_BusError {St A : Type} (msg : Z + string) : M St A :=
  match BusError__init__ msg with
  | Return e => raise e
  | Raise e => raise e
  | OutOfFuel => lift OutOfFuel
  end.

Definition short_response_msg (got : Z) (expected : Z) : string :=
  ("short response; got " ++ str_of_int got ++ " bytes, expected "
     ++ str_of_int expected)%string.

Definition short_read_msg (got : Z) (expected : Z) : string :=
  ("short read; got " ++ str_of_int got ++ " bytes, expected "
     ++ str_of_int expected)%string.

(** The dict of [set_pin_mode]. *)
Definition pin_mode_dict : list (pyval * Z) :=
  [ (PStr "digital_out", PIN_MODE_DIGITAL_OUT);
    (PInt PIN_MODE_DIGITAL_OUT, PIN_MODE_DIGITAL_OUT) ].

(** The dict of [digital_write]. *)
Definition pin_status_dict : list (pyval * Z) :=
  [ (PStr "high", PIN_STATUS_HIGH);
    (PStr "low", PIN_STATUS_LOW);
    (PBool true, PIN_STATUS_HIGH);
    (PBool false, PIN_STATUS_LOW);
    (PInt PIN_STATUS_HIGH, PIN_STATUS_HIGH);
    (PInt PIN_STATUS_LOW, PIN_STATUS_LOW);
    (PStr "toggle", PIN_STATUS_TOGGLE) ].

(** ** [bytes.rstrip], [bytes.decode] and [struct.unpack] *)

(** [bs.rstrip(b'\0')]: the NUL bytes at the end are dropped, the others
    stay. *)
Fixpoint rstrip_nul (bs : bytes) : bytes :=
  match bs with
  | [] => []
  | b :: tl =>
      match rstrip_nul tl with
      | [] => if Byte.eqb b x00 then [] else [b]
      | (_ :: _) as tl' => b :: tl'
      end
  end.

(** What [bs.decode('ascii')] comes to: the text, or the
    [UnicodeDecodeError] it raises at the first byte above 127, with the
    position of that byte.  The error is not among [exn]; a method that
    decodes returns a [decoded], and the error case stands for the raise. *)
Inductive decoded : Type :=
| Text (s : string)
| UnicodeDecodeError (position : Z) (b : byte).

Fixpoint decode_ascii_from (position : Z) (bs : bytes) : decoded :=
  match bs with
  | [] => Text ""
  | b :: tl =>
      if int_of_byte b <? 128 then
        match decode_ascii_from (position + 1) tl with
        | Text s => Text (String (ascii_of_byte b) s)
        | UnicodeDecodeError i c => UnicodeDecodeError i c
        end
      else UnicodeDecodeError position b
  end.

Definition decode_ascii (bs : bytes) : decoded := decode_ascii_from 0 bs.

(** A little-endian signed 16-bit integer, from its two bytes. *)
Definition int16_le (lo hi : byte) : Z :=
  let u := int_of_byte lo + 256 * int_of_byte hi in
  if u <? 32768 then u else u - 65536.

(** [unpack('<hhhh', buffer)]: the buffer must hold exactly eight bytes. *)
Definition unpack_hhhh (buffer : bytes) : result (Z * Z * Z * Z) :=
  match buffer with
  | [a0; a1; b0; b1; c0; c1; d0; d1] =>
      Return (int16_le a0 a1, int16_le b0 b1, int16_le c0 c1, int16_le d0 d1)
  | _ => Raise StructError
  end.

Section Driver.

Context {Port : Type} `{Serial Port}.

Local Open Scope py_scope.

(** *** class BusAdapter *)

(** [__init__], on the port [serial.Serial(port, ...)] has opened; the
    settle delay has no effect on the port. *)
Definition BusAdapter__init__ : M Port unit :=
  fun p => (Return tt, sp_setRTS (sp_setDTR p false) false).

Definition _send (cmd_code : Z) (data : bytes) : M Port unit :=
  hdr <- lift (pack [fmt_B; fmt_B] [len data + 1; cmd_code]) ;;
  fun p => (Return tt, sp_write p (hdr ++ data)).

(** The [while bytes_to_read:] loop of [_recv].  One unit of fuel is spent
    per [read] call; the loop test itself is free. *)
Fixpoint _recv_loop (fuel : nat) (size : Z) (bytes_to_read : Z)
    (response : bytes) : M Port bytes :=
  if bytes_to_read =? 0 then ret response
  else
    match fuel with
    | O => lift OutOfFuel
    | S fuel' =>
        fun p =>
          let (block, p') := sp_read p bytes_to_read in
          match block with
          | [] =>
              raise_BusError (inr (short_response_msg (len response) size)) p'
          | _ :: _ =>
              _recv_loop fuel' size (bytes_to_read - len block)
                (response ++ block) p'
          end
    end.

Definition _recv (fuel : nat) : M Port (Z * bytes) :=
  fun p =>
    let (response_size, p1) := sp_read p 1 in
    match response_size with
    | [] => raise Timeout p1
    | size0 :: _ =>
        (response <- _recv_loop fuel (int_of_byte size0) (int_of_byte size0) [] ;;
         match response with
         | [] => raise IndexError
         | r0 :: rest => ret (int_of_byte r0, rest)
         end) p1
    end.

Definition get_version (fuel : nat) : M Port decoded :=
  _send CMD_VERSION [] ;;
  ' (resp_code, response) <- _recv fuel ;;
  if resp_code =? RESPONSE_OK then ret (decode_ascii (rstrip_nul response))
  else raise (AssertionError resp_code).

Definition debug1 (fuel : nat) : M Port (Z * Z * Z * Z) :=
  _send CMD_DEBUG1 [] ;;
  ' (resp_code, response) <- _recv fuel ;;
  if resp_code =? RESPONSE_OK then lift (unpack_hhhh response)
  else raise (AssertionError resp_code).

Definition set_pin_mode (fuel : nat) (pin_number : Z) (mode : pyval)
  : M Port unit :=
  match dict_get py_eq pin_mode_dict mode with
  | None => raise (ValueError "wrong pin mode {!r}" [mode])
  | Some mode =>
      data <- lift (pack [fmt_B; fmt_B] [pin_number; mode]) ;;
      _send CMD_SET_PIN_MODE data ;;
      ' (resp_code, response) <- _recv fuel ;;
      if resp_code =? RESPONSE_OK then ret tt
      else raise (AssertionError resp_code)
  end.

Definition digital_write (fuel : nat) (pin_number : Z) (status : pyval)
  : M Port unit :=
  match dict_get py_eq pin_status_dict status with
  | None => raise (ValueError "wrong pin status {!r}" [status])
  | Some status =>
      data <- lift (pack [fmt_B; fmt_B] [pin_number; status]) ;;
      _send CMD_DIGITAL_WRITE data ;;
      ' (resp_code, response) <- _recv fuel ;;
      if resp_code =? RESPONSE_OK then ret tt
      else raise (AssertionError resp_code)
  end.

(** *** class BusAdapterI2CMaster *)

Definition BusAdapterI2CMaster__init__ (fuel : nat) : M Port unit :=
  BusAdapter__init__ ;;
  data <- lift (pack [fmt_B; fmt_B; fmt_H] [MODE_I2C_MASTER; 0; 400]) ;;
  _send CMD_INIT data ;;
  ' (msg_code, payload) <- _recv fuel ;;
  if negb (msg_code =? RESPONSE_OK)
     && match payload with [] => false | _ :: _ => true end
  then raise ProtocolError
  else ret tt.

Definition write (fuel : nat) (address : Z) (payload : bytes) : M Port unit :=
  a <- lift (pack [fmt_B] [address]) ;;
  _send CMD_WRITE (a ++ payload) ;;
  ' (msg_code, response) <- _recv fuel ;;
  if negb (len response =? 0) || (msg_code =? RESPONSE_BAD_PARAMETERS)
  then raise ProtocolError
  else if negb (msg_code =? RESPONSE_OK)
  then raise_BusError (inl msg_code)
  else ret tt.

Definition read (fuel : nat) (address : Z) (read_size : Z) : M Port bytes :=
  data <- lift (pack [fmt_B; fmt_B] [address; read_size]) ;;
  _send CMD_READ data ;;
  ' (msg_code, response) <- _recv fuel ;;
  if msg_code =? RESPONSE_BAD_PARAMETERS then raise ProtocolError
  else if negb (msg_code =? RESPONSE_OK) then raise_BusError (inl msg_code)
  else if negb (len response =? read_size)
  then raise_BusError (inr "short read")
  else ret response.

(** The payload is taken as a [bytes] object, on which [bytes(payload)] is
    the identity. *)
Definition transaction (fuel : nat) (address : Z) (payload : bytes)
    (read_size : Z) : M Port bytes :=
  if len payload <? 1
  then raise (ValueError "at least one byte of payload is required" [])
  else
    hdr <- lift (pack [fmt_B; fmt_B] [address; read_size]) ;;
    _send CMD_TRANSACTION (hdr ++ payload) ;;
    ' (msg_code, response) <- _recv fuel ;;
    if msg_code =? RESPONSE_BAD_PARAMETERS then raise ProtocolError
    else if negb (msg_code =? RESPONSE_OK) then raise_BusError (inl msg_code)
    else if negb (len response =? read_size)
    then raise_BusError (inr (short_read_msg (len response) read_size))
    else ret response.

(** The exchange of a call: the request [cmd_code], [data] goes out on
    port [p] and one response frame comes back, decoded as [status] and
    [resp], leaving the port as [p2]. *)
Definition responds (fuel : nat) (cmd_code : Z) (data : bytes) (p : Port)
    (status : Z) (resp : bytes) (p2 : Port) : Prop :=
  exists p1 : Port,
    _send cmd_code data p = (Return tt, p1)
    /\ _recv fuel p1 = (Return (status, resp), p2).

End Driver.

(** ** Bytes and integers *)

Lemma int_of_byte_range (b : byte) : 0 <= int_of_byte b <= 255.
Proof.
  unfold int_of_byte. pose proof (Byte.to_N_bounded b). lia.
Qed.

Lemma int_of_byte_of_int (z : Z) (b : byte) :
  byte_of_int z = Some b -> int_of_byte b = z.
Proof.
  unfold byte_of_int, int_of_byte.
  destruct (Z.ltb_spec z 0) as [Hneg | Hpos]; [discriminate |].
  intros Hb. apply Byte.to_of_N in Hb. rewrite Hb. lia.
Qed.

Lemma byte_of_int_of_byte (b : byte) : byte_of_int (int_of_byte b) = Some b.
Proof.
  unfold byte_of_int, int_of_byte.
  destruct (Z.ltb_spec (Z.of_N (Byte.to_N b)) 0) as [Hneg | Hpos]; [lia |].
  rewrite N2Z.id. apply Byte.of_to_N.
Qed.

Lemma byte_of_int_some (z : Z) :
  0 <= z <= 255 -> exists b : byte, byte_of_int z = Some b.
Proof.
  intros Hz. unfold byte_of_int.
  destruct (Z.ltb_spec z 0) as [Hneg | Hpos]; [lia |].
  destruct (Byte.of_N (Z.to_N z)) as [b |] eqn:Hb; [now exists b |].
  apply Byte.of_N_None_iff in Hb. lia.
Qed.

Lemma byte_of_int_none (z : Z) :
  z < 0 \/ 255 < z -> byte_of_int z = None.
Proof.
  intros Hz. unfold byte_of_int.
  destruct (Z.ltb_spec z 0) as [Hneg | Hpos]; [reflexivity |].
  apply Byte.of_N_None_iff. lia.
Qed.

Lemma len_app {A : Type} (l1 l2 : list A) : len (l1 ++ l2) = len l1 + len l2.
Proof. unfold len. rewrite length_app. lia. Qed.

Lemma len_nonneg {A : Type} (l : list A) : 0 <= len l.
Proof. unfold len. lia. Qed.

Lemma len_cons {A : Type} (a : A) (l : list A) : len (a :: l) = 1 + len l.
Proof. unfold len. cbn [List.length]. lia. Qed.

Lemma len_zero_nil {A : Type} (l : list A) : len l = 0 -> l = [].
Proof. destruct l; [reflexivity | rewrite len_cons; pose proof (len_nonneg l); lia]. Qed.

(** ** The receive loop on any port *)

Section AnyPort.

Context {Port : Type} `{Serial Port}.

Lemma recv_loop_done (fuel : nat) (size : Z) (response : bytes) (p : Port) :
  _recv_loop fuel size 0 response p = (Return response, p).
Proof. destruct fuel; reflexivity. Qed.

(** One turn of the loop, when there is something left to read. *)
Lemma recv_loop_turn (fuel : nat) (size bytes_to_read : Z) (response : bytes)
    (p : Port) :
  bytes_to_read <> 0 ->
  _recv_loop (S fuel) size bytes_to_read response p =
    match fst (sp_read p bytes_to_read) with
    | [] =>
        (Raise (BusError (short_response_msg (len response) size)),
         snd (sp_read p bytes_to_read))
    | _ :: _ =>
        _recv_loop fuel size
          (bytes_to_read - len (fst (sp_read p bytes_to_read)))
          (response ++ fst (sp_read p bytes_to_read))
          (snd (sp_read p bytes_to_read))
    end.
Proof.
  intros Hleft. cbn [_recv_loop].
  apply Z.eqb_neq in Hleft. rewrite Hleft.
  destruct (sp_read p bytes_to_read) as [block p']. cbn [fst snd].
  destruct block; reflexivity.
Qed.

(** With the contract of [read], as many units of fuel as bytes are left
    to read always suffice. *)
Lemma recv_loop_enough_fuel (Hread : read_bounded) (fuel : nat) :
  forall (size bytes_to_read : Z) (response : bytes) (p : Port),
    0 <= bytes_to_read ->
    (Z.to_nat bytes_to_read <= fuel)%nat ->
    fst (_recv_loop fuel size bytes_to_read response p) <> OutOfFuel.
Proof.
  induction fuel as [| fuel IH]; intros size left response p Hpos Hfuel.
  - assert (left = 0) as -> by lia. rewrite recv_loop_done. discriminate.
  - destruct (Z.eq_dec left 0) as [-> | Hleft].
    + rewrite recv_loop_done. discriminate.
    + rewrite (recv_loop_turn _ _ _ _ _ Hleft).
      pose proof (Hread p left Hpos) as Hle.
      destruct (fst (sp_read p left)) as [| b block] eqn:Hblock.
      * discriminate.
      * rewrite len_cons in Hle. pose proof (len_nonneg block).
        apply IH; rewrite len_cons; lia.
Qed.

(** More fuel never changes an outcome that was reached. *)
Lemma recv_loop_more_fuel (fuel : nat) :
  forall (fuel' : nat) (size bytes_to_read : Z) (response : bytes) (p : Port),
    (fuel <= fuel')%nat ->
    fst (_recv_loop fuel size bytes_to_read response p) <> OutOfFuel ->
    _recv_loop fuel' size bytes_to_read response p =
    _recv_loop fuel size bytes_to_read response p.
Proof.
  induction fuel as [| fuel IH]; intros fuel' size left response p Hle Hout.
  - destruct (Z.eq_dec left 0) as [-> | Hleft].
    + now rewrite !recv_loop_done.
    + exfalso. apply Hout. cbn [_recv_loop].
      apply Z.eqb_neq in Hleft. now rewrite Hleft.
  - destruct (Z.eq_dec left 0) as [-> | Hleft].
    + now rewrite !recv_loop_done.
    + destruct fuel' as [| fuel']; [lia |].
      rewrite (recv_loop_turn fuel' _ _ _ _ Hleft).
      rewrite (recv_loop_turn fuel _ _ _ _ Hleft) in Hout |- *.
      destruct (fst (sp_read p left)) as [| b block]; [reflexivity |].
      apply IH; [lia | exact Hout].
Qed.

(** [_recv] needs no more fuel than the largest length byte. *)
Lemma recv_total (Hread : read_bounded) (fuel : nat) (p : Port) :
  (255 <= fuel)%nat -> fst (_recv fuel p) <> OutOfFuel.
Proof.
  intros Hfuel. unfold _recv.
  destruct (sp_read p 1) as [response_size p1].
  destruct response_size as [| size0 rest]; [discriminate |].
  unfold bind.
  pose proof (int_of_byte_range size0) as Hrange.
  pose proof (recv_loop_enough_fuel Hread fuel (int_of_byte size0)
                (int_of_byte size0) [] p1 (proj1 Hrange)) as Hloop.
  destruct (_recv_loop fuel (int_of_byte size0) (int_of_byte size0) [] p1)
    as [[response | e |] p2]; cbn [fst] in *.
  - destruct response; discriminate.
  - discriminate.
  - exfalso. apply Hloop; [lia | reflexivity].
Qed.

(** C7: when the one-byte read for the length yields no bytes, [_recv]
    raises [Timeout] and nothing else, for every port and whatever the
    port would have delivered afterwards. *)
Theorem recv_timeout_on_empty_length_read (fuel : nat) (p : Port) :
  fst (sp_read p 1) = [] ->
  _recv fuel p = (Raise Timeout, snd (sp_read p 1)).
Proof.
  intros Hempty. unfold _recv.
  destruct (sp_read p 1) as [response_size p1]. cbn [fst snd] in *.
  subst response_size. reflexivity.
Qed.

(** C10: the body-accumulation loop of [_recv] terminates on every port
    that honours the contract of [read] (between 0 and the requested
    number of bytes per attempt).  With bytes left to read, an empty
    block leaves the loop by raising; a non-empty block leaves a remaining
    count that is strictly smaller and not negative, and the loop goes on
    from there.  Since a unit of fuel is spent per [read], [bytes_to_read]
    units never run out: the loop makes at most that many reads. *)
Theorem recv_loop_terminates (Hread : read_bounded) (size bytes_to_read : Z)
    (response : bytes) (p : Port) :
  0 <= bytes_to_read ->
  (bytes_to_read <> 0 ->
   0 <= len (fst (sp_read p bytes_to_read)) <= bytes_to_read
   /\ (fst (sp_read p bytes_to_read) = [] ->
       forall fuel : nat,
         exists msg : string,
           fst (_recv_loop (S fuel) size bytes_to_read response p)
           = Raise (BusError msg))
   /\ (fst (sp_read p bytes_to_read) <> [] ->
       0 <= bytes_to_read - len (fst (sp_read p bytes_to_read)) < bytes_to_read
       /\ forall fuel : nat,
           _recv_loop (S fuel) size bytes_to_read response p =
           _recv_loop fuel size
             (bytes_to_read - len (fst (sp_read p bytes_to_read)))
             (response ++ fst (sp_read p bytes_to_read))
             (snd (sp_read p bytes_to_read))))
  /\ fst (_recv_loop (Z.to_nat bytes_to_read) size bytes_to_read response p)
     <> OutOfFuel.
Proof.
  intros Hpos. split.
  - intros Hleft.
    pose proof (Hread p bytes_to_read Hpos) as Hle.
    pose proof (len_nonneg (fst (sp_read p bytes_to_read))) as Hge.
    split; [lia |]. split.
    + intros Hempty fuel. rewrite (recv_loop_turn _ _ _ _ _ Hleft), Hempty.
      eexists. reflexivity.
    + intros Hblock. split.
      * destruct (fst (sp_read p bytes_to_read)) as [| b block];
          [contradiction |].
        rewrite len_cons in *. pose proof (len_nonneg block). lia.
      * intros fuel. rewrite (recv_loop_turn _ _ _ _ _ Hleft).
        destruct (fst (sp_read p bytes_to_read)); [contradiction | reflexivity].
  - apply recv_loop_enough_fuel; [exact Hread | exact Hpos | lia].
Qed.

End AnyPort.


(** ** What each I2C operation makes of a response *)

Lemma len_eqb_zero {A : Type} (l : list A) :
  (len l =? 0) = match l with [] => true | _ :: _ => false end.
Proof.
  destruct l as [| a l]; [reflexivity |].
  rewrite len_cons. pose proof (len_nonneg l). apply Z.eqb_neq. lia.
Qed.

Section Operations.

Context {Port : Type} `{Serial Port}.

(** [write], once its request is out and the response is decoded. *)
Lemma write_after_exchange (fuel : nat) (address : Z) (payload a : bytes)
    (p p2 : Port) (status : Z) (resp : bytes) :
  pack [fmt_B] [address] = Return a ->
  responds fuel CMD_WRITE (a ++ payload) p status resp p2 ->
  write fuel address payload p =
  (if negb (len resp =? 0) || (status =? RESPONSE_BAD_PARAMETERS)
   then raise ProtocolError
   else if negb (status =? RESPONSE_OK) then raise_BusError (inl status)
   else ret tt) p2.
Proof.
  intros Hpack (p1 & Hsend & Hrecv).
  unfold write, bind at 1, lift. rewrite Hpack.
  unfold bind at 1. rewrite Hsend.
  unfold bind. rewrite Hrecv. reflexivity.
Qed.

(** [read], once its request is out and the response is decoded. *)
Lemma read_after_exchange (fuel : nat) (address read_size : Z) (data : bytes)
    (p p2 : Port) (status : Z) (resp : bytes) :
  pack [fmt_B; fmt_B] [address; read_size] = Return data ->
  responds fuel CMD_READ data p status resp p2 ->
  read fuel address read_size p =
  (if status =? RESPONSE_BAD_PARAMETERS then raise ProtocolError
   else if negb (status =? RESPONSE_OK) then raise_BusError (inl status)
   else if negb (len resp =? read_size) then raise_BusError (inr "short read")
   else ret resp) p2.
Proof.
  intros Hpack (p1 & Hsend & Hrecv).
  unfold read, bind at 1, lift. rewrite Hpack.
  unfold bind at 1. rewrite Hsend.
  unfold bind. rewrite Hrecv. reflexivity.
Qed.

(** [transaction] with a payload, once its request is out and the response
    is decoded. *)
Lemma transaction_after_exchange (fuel : nat) (address read_size : Z)
    (payload hdr : bytes) (p p2 : Port) (status : Z) (resp : bytes) :
  1 <= len payload ->
  pack [fmt_B; fmt_B] [address; read_size] = Return hdr ->
  responds fuel CMD_TRANSACTION (hdr ++ payload) p status resp p2 ->
  transaction fuel address payload read_size p =
  (if status =? RESPONSE_BAD_PARAMETERS then raise ProtocolError
   else if negb (status =? RESPONSE_OK) then raise_BusError (inl status)
   else if negb (len resp =? read_size)
   then raise_BusError (inr (short_read_msg (len resp) read_size))
   else ret resp) p2.
Proof.
  intros Hlen Hpack (p1 & Hsend & Hrecv).
  unfold transaction.
  destruct (Z.ltb_spec (len payload) 1) as [Hlt | _]; [lia |].
  unfold bind at 1, lift. rewrite Hpack.
  unfold bind at 1. rewrite Hsend.
  unfold bind. rewrite Hrecv. reflexivity.
Qed.

(** [BusAdapterI2CMaster.__init__], once the init request is out and the
    response is decoded: [ProtocolError] needs a status that is not ok
    together with a payload that is not empty. *)
Lemma init_after_exchange (fuel : nat) (data : bytes) (p p2 : Port)
    (status : Z) (payload : bytes) :
  pack [fmt_B; fmt_B; fmt_H] [MODE_I2C_MASTER; 0; 400] = Return data ->
  responds fuel CMD_INIT data (sp_setRTS (sp_setDTR p false) false)
    status payload p2 ->
  BusAdapterI2CMaster__init__ fuel p =
  (if negb (status =? RESPONSE_OK)
      && match payload with [] => false | _ :: _ => true end
   then raise ProtocolError
   else ret tt) p2.
Proof.
  intros Hpack (p1 & Hsend & Hrecv).
  unfold BusAdapterI2CMaster__init__, bind at 1, BusAdapter__init__.
  unfold bind at 1, lift. rewrite Hpack.
  unfold bind at 1. rewrite Hsend.
  unfold bind. rewrite Hrecv. reflexivity.
Qed.

(** C3: [write] succeeds on status ok with an empty response payload;
    raises [ProtocolError] when the response payload is not empty (also on
    ok) or the status is bad-parameters; and with an empty payload raises
    [BusError] with the fixed message of nack-on-address, short-write,
    nack-on-data, data-too-long and other-error. *)
Theorem write_status_handling (fuel : nat) (address : Z) (payload a : bytes)
    (p p2 : Port) (status : Z) (resp : bytes) :
  pack [fmt_B] [address] = Return a ->
  responds fuel CMD_WRITE (a ++ payload) p status resp p2 ->
  (status = RESPONSE_OK -> resp = [] ->
   write fuel address payload p = (Return tt, p2))
  /\ (resp <> [] \/ status = RESPONSE_BAD_PARAMETERS ->
      write fuel address payload p = (Raise ProtocolError, p2))
  /\ (resp = [] ->
      (status = RESPONSE_NACK_ON_ADDRESS ->
       write fuel address payload p = (Raise (BusError "nack on address"), p2))
      /\ (status = RESPONSE_SHORT_WRITE ->
          write fuel address payload p = (Raise (BusError "short write"), p2))
      /\ (status = RESPONSE_NACK_ON_DATA ->
          write fuel address payload p = (Raise (BusError "nack on data"), p2))
      /\ (status = RESPONSE_DATA_TOO_LONG ->
          write fuel address payload p =
          (Raise (BusError "data too long for transmit buffer"), p2))
      /\ (status = RESPONSE_OTHER_ERROR ->
          write fuel address payload p = (Raise (BusError "other error"), p2))).
Proof.
  intros Hpack Hresp.
  rewrite (write_after_exchange _ _ _ _ _ _ _ _ Hpack Hresp), len_eqb_zero.
  split; [| split].
  - intros -> ->. reflexivity.
  - intros [Hne | ->].
    + destruct resp; [contradiction | reflexivity].
    + destruct resp; reflexivity.
  - intros ->. repeat split; intros ->; reflexivity.
Qed.

(** C4: a [read] that receives status ok returns the response payload
    unchanged when its length is [read_size], and raises
    [BusError("short read")] for every other length. *)
Theorem read_ok_exact_length (fuel : nat) (address read_size : Z)
    (data : bytes) (p p2 : Port) (resp : bytes) :
  pack [fmt_B; fmt_B] [address; read_size] = Return data ->
  responds fuel CMD_READ data p RESPONSE_OK resp p2 ->
  (len resp = read_size ->
   read fuel address read_size p = (Return resp, p2))
  /\ (len resp <> read_size ->
      read fuel address read_size p = (Raise (BusError "short read"), p2)).
Proof.
  intros Hpack Hresp.
  rewrite (read_after_exchange _ _ _ _ _ _ _ _ Hpack Hresp).
  cbn [RESPONSE_OK RESPONSE_BAD_PARAMETERS Z.eqb negb].
  split; intros Hlen.
  - apply Z.eqb_eq in Hlen. rewrite Hlen. reflexivity.
  - apply Z.eqb_neq in Hlen. rewrite Hlen. reflexivity.
Qed.

(** A [transaction] without write bytes raises [ValueError] on the port as
    it found it: no [write] and no [read] was called. *)
Lemma transaction_empty_payload (fuel : nat) (address read_size : Z)
    (payload : bytes) (p : Port) :
  len payload = 0 ->
  transaction fuel address payload read_size p =
  (Raise (ValueError "at least one byte of payload is required" []), p).
Proof.
  intros Hlen. unfold transaction. rewrite Hlen. reflexivity.
Qed.

(** What [BusError(code)] raises for a status outside the dict. *)
Lemma raise_BusError_unmapped (A : Type) (status : Z) (p : Port) :
  status = RESPONSE_ERROR \/ status = RESPONSE_CMD_UNAVAILABLE
  \/ status = RESPONSE_WRONG_COMMAND ->
  @raise_BusError Port A (inl status) p = (Raise (KeyError status), p).
Proof. intros [-> | [-> | ->]]; reflexivity. Qed.

(** C9, amended: for a response status of error (1), command-unavailable
    (2) or wrong-command (3), [BusError(status)] fails in its dict lookup and
    the caller gets a [KeyError] in every [read], every [transaction] that
    got past its payload check, and every [write] whose response payload is
    empty; a [write] whose response payload is not empty raises
    [ProtocolError] before any [BusError] is built. *)
Theorem unmapped_status_key_error (fuel : nat) (p p2 : Port) (status : Z)
    (resp : bytes) :
  status = RESPONSE_ERROR \/ status = RESPONSE_CMD_UNAVAILABLE
  \/ status = RESPONSE_WRONG_COMMAND ->
  (forall (address : Z) (payload a : bytes),
      pack [fmt_B] [address] = Return a ->
      responds fuel CMD_WRITE (a ++ payload) p status resp p2 ->
      (resp = [] ->
       write fuel address payload p = (Raise (KeyError status), p2))
      /\ (resp <> [] ->
          write fuel address payload p = (Raise ProtocolError, p2)))
  /\ (forall (address read_size : Z) (data : bytes),
         pack [fmt_B; fmt_B] [address; read_size] = Return data ->
         responds fuel CMD_READ data p status resp p2 ->
         read fuel address read_size p = (Raise (KeyError status), p2))
  /\ (forall (address read_size : Z) (payload hdr : bytes),
         1 <= len payload ->
         pack [fmt_B; fmt_B] [address; read_size] = Return hdr ->
         responds fuel CMD_TRANSACTION (hdr ++ payload) p status resp p2 ->
         transaction fuel address payload read_size p
         = (Raise (KeyError status), p2)).
Proof.
  intros Hstatus. split; [| split].
  - intros address payload a Hpack Hresp.
    rewrite (write_after_exchange _ _ _ _ _ _ _ _ Hpack Hresp), len_eqb_zero.
    split.
    + intros ->. destruct Hstatus as [-> | [-> | ->]]; reflexivity.
    + intros Hne. destruct resp; [contradiction | reflexivity].
  - intros address read_size data Hpack Hresp.
    rewrite (read_after_exchange _ _ _ _ _ _ _ _ Hpack Hresp).
    destruct Hstatus as [-> | [-> | ->]]; reflexivity.
  - intros address read_size payload hdr Hlen Hpack Hresp.
    rewrite (transaction_after_exchange _ _ _ _ _ _ _ _ _ Hlen Hpack Hresp).
    destruct Hstatus as [-> | [-> | ->]]; reflexivity.
Qed.

End Operations.


(** ** The scripted port *)

Lemma script_read_bounded : @read_bounded ScriptPort ScriptSerial.
Proof.
  intros p n Hn. cbn [sp_read ScriptSerial]. unfold script_read.
  destruct (pending p) as [| chunk rest]; cbn [fst].
  - exact Hn.
  - unfold len. rewrite length_firstn. lia.
Qed.

Lemma written_app (l1 l2 : list io_event) :
  written (l1 ++ l2) = written l1 ++ written l2.
Proof.
  induction l1 as [| ev l1 IH]; [reflexivity |].
  destruct ev; cbn [written app]; rewrite IH; [| apply app_assoc | |];
    reflexivity.
Qed.

(** A read that asks for at least a whole chunk gets that chunk. *)
Lemma script_read_whole (c : bytes) (cs : list bytes) (l : list io_event)
    (n : Z) :
  len c <= n ->
  script_read (mkPort (c :: cs) l) n = (c, mkPort cs (l ++ [EvRead n c])).
Proof.
  intros Hle. unfold script_read, len in *. cbn [pending log].
  rewrite firstn_all2, skipn_all2 by lia. reflexivity.
Qed.

(** The read of the length byte takes one byte off the first chunk. *)
Lemma script_read_one (b : byte) (c0 : bytes) (cs : list bytes)
    (l : list io_event) :
  script_read (mkPort ((b :: c0) :: cs) l) 1 =
  ([b], mkPort (requeue c0 cs) (l ++ [EvRead 1 [b]])).
Proof. reflexivity. Qed.

Lemma requeue_chunks (c0 : bytes) (cs : list bytes) :
  Forall (fun c : bytes => c <> []) cs ->
  Forall (fun c : bytes => c <> []) (requeue c0 cs)
  /\ List.concat (requeue c0 cs) = c0 ++ List.concat cs.
Proof.
  intros Hcs. destruct c0 as [| b c0]; [now split |].
  split; [constructor; [discriminate | exact Hcs] | reflexivity].
Qed.

Lemma requeue_app (c0 : bytes) (cs tail : list bytes) :
  requeue c0 (cs ++ tail) = requeue c0 cs ++ tail.
Proof. destruct c0; reflexivity. Qed.

(** The loop on a script that holds exactly the bytes still to be read, in
    non-empty chunks: it returns them all and only reads. *)
Lemma script_loop_complete (chunks : list bytes) :
  forall (fuel : nat) (size bytes_to_read : Z) (response : bytes)
         (l : list io_event),
    Forall (fun c : bytes => c <> []) chunks ->
    bytes_to_read = len (List.concat chunks) ->
    (Z.to_nat bytes_to_read <= fuel)%nat ->
    exists l' : list io_event,
      _recv_loop fuel size bytes_to_read response (mkPort chunks l)
      = (Return (response ++ List.concat chunks), mkPort [] l')
      /\ written l' = written l.
Proof.
  induction chunks as [| c cs IH];
    intros fuel size left response l Hne Hleft Hfuel.
  - subst left. cbn [List.concat]. rewrite app_nil_r.
    exists l. split; [apply recv_loop_done | reflexivity].
  - inversion Hne as [| c' cs' Hc Hcs]; subst c' cs'.
    cbn [List.concat] in Hleft. rewrite len_app in Hleft.
    pose proof (len_nonneg (List.concat cs)) as Hrest.
    assert (0 < len c) as Hpos.
    { destruct c; [contradiction |].
      rewrite len_cons. pose proof (len_nonneg c). lia. }
    destruct fuel as [| fuel]; [lia |].
    rewrite recv_loop_turn by lia.
    cbn [sp_read ScriptSerial].
    rewrite script_read_whole by lia. cbn [fst snd].
    destruct c as [| b c]; [contradiction |].
    destruct (IH fuel size (left - len (b :: c)) (response ++ b :: c)
                (l ++ [EvRead left (b :: c)]) Hcs) as (l' & Hrun & Hw);
      [lia | lia |].
    exists l'. split.
    + rewrite Hrun. cbn [List.concat]. now rewrite <- app_assoc.
    + rewrite Hw, written_app. cbn [written]. apply app_nil_r.
Qed.

(** The loop on a script that runs dry before the declared count: it raises
    [BusError] with the number of bytes it did gather. *)
Lemma script_loop_starved (chunks : list bytes) :
  forall (fuel : nat) (size bytes_to_read : Z) (response : bytes)
         (rest : list bytes) (l : list io_event),
    Forall (fun c : bytes => c <> []) chunks ->
    len (List.concat chunks) < bytes_to_read ->
    (Z.to_nat bytes_to_read <= fuel)%nat ->
    exists l' : list io_event,
      _recv_loop fuel size bytes_to_read response
        (mkPort (chunks ++ [] :: rest) l)
      = (Raise (BusError (short_response_msg
                            (len response + len (List.concat chunks)) size)),
         mkPort rest l').
Proof.
  induction chunks as [| c cs IH];
    intros fuel size left response rest l Hne Hleft Hfuel.
  - cbn [List.concat app] in *. change (len (@nil byte)) with 0 in *.
    destruct fuel as [| fuel]; [lia |].
    rewrite recv_loop_turn by lia.
    cbn [sp_read ScriptSerial]. unfold script_read. cbn [pending log].
    rewrite firstn_nil, skipn_nil. cbn [fst snd].
    rewrite Z.add_0_r. eexists. reflexivity.
  - inversion Hne as [| c' cs' Hc Hcs]; subst c' cs'.
    cbn [List.concat] in Hleft. rewrite len_app in Hleft.
    pose proof (len_nonneg (List.concat cs)) as Hrest.
    pose proof (len_nonneg c) as Hchunk.
    destruct fuel as [| fuel]; [lia |].
    rewrite recv_loop_turn by lia.
    cbn [sp_read ScriptSerial app].
    rewrite script_read_whole by lia. cbn [fst snd].
    destruct c as [| b c]; [contradiction |].
    assert (0 < len (b :: c)) as Hpos.
    { rewrite len_cons. pose proof (len_nonneg c). lia. }
    destruct (IH fuel size (left - len (b :: c)) (response ++ b :: c) rest
                (l ++ [EvRead left (b :: c)]) Hcs) as (l' & Hrun);
      [lia | lia |].
    exists l'. rewrite Hrun. cbn [List.concat].
    rewrite !len_app. now rewrite Z.add_assoc.
Qed.

(** On the scripted port [_recv] only reads: what was written stays as it
    was. *)
Lemma script_recv_loop_written (fuel : nat) :
  forall (size bytes_to_read : Z) (response : bytes) (p : ScriptPort),
    written (log (snd (_recv_loop fuel size bytes_to_read response p)))
    = written (log p).
Proof.
  induction fuel as [| fuel IH]; intros size left response p.
  - cbn [_recv_loop]. destruct (left =? 0); reflexivity.
  - destruct (Z.eq_dec left 0) as [-> | Hleft];
      [now rewrite recv_loop_done |].
    rewrite recv_loop_turn by exact Hleft.
    assert (written (log (snd (sp_read p left))) = written (log p)) as Hread.
    { cbn [sp_read ScriptSerial]. unfold script_read.
      destruct (pending p); cbn [snd log]; rewrite written_app;
        cbn [written]; apply app_nil_r. }
    destruct (fst (sp_read p left)); [exact Hread |].
    rewrite IH. exact Hread.
Qed.

Lemma script_recv_written (fuel : nat) (p : ScriptPort) :
  written (log (snd (_recv fuel p))) = written (log p).
Proof.
  unfold _recv.
  assert (written (log (snd (sp_read p 1))) = written (log p)) as Hread.
  { cbn [sp_read ScriptSerial]. unfold script_read.
    destruct (pending p); cbn [snd log]; rewrite written_app;
      cbn [written]; apply app_nil_r. }
  destruct (sp_read p 1) as [response_size p1]. cbn [snd] in Hread.
  destruct response_size as [| size0 rest]; [exact Hread |].
  unfold bind.
  pose proof (script_recv_loop_written fuel (int_of_byte size0)
                (int_of_byte size0) [] p1) as Hloop.
  destruct (_recv_loop fuel (int_of_byte size0) (int_of_byte size0) [] p1)
    as [[response | e |] p2]; cbn [snd] in *;
    [destruct response |..]; cbn [snd raise ret]; congruence.
Qed.

Lemma pack_BB (x y : Z) (a b : byte) :
  byte_of_int x = Some a ->
  byte_of_int y = Some b ->
  pack [fmt_B; fmt_B] [x; y] = Return [a; b].
Proof. intros Hx Hy. cbn. rewrite Hx. cbn. rewrite Hy. reflexivity. Qed.

(** [_send] on the scripted port: one [write] of the whole frame. *)
Lemma script_send (cmd_code : Z) (data : bytes) (p : ScriptPort)
    (bl bc : byte) :
  byte_of_int (len data + 1) = Some bl ->
  byte_of_int cmd_code = Some bc ->
  _send cmd_code data p
  = (Return tt, mkPort (pending p) (log p ++ [EvWrite (bl :: bc :: data)])).
Proof.
  intros Hl Hc. unfold _send, bind, lift.
  rewrite (pack_BB _ _ _ _ Hl Hc). reflexivity.
Qed.

(** [_recv] on a script that delivers one whole frame, however it is cut
    into non-empty chunks. *)
Lemma script_recv_frame (chunks : list bytes) (b r0 : byte) (rest : bytes)
    (fuel : nat) (l : list io_event) :
  Forall (fun c : bytes => c <> []) chunks ->
  List.concat chunks = b :: r0 :: rest ->
  int_of_byte b = len (r0 :: rest) ->
  (Z.to_nat (int_of_byte b) <= fuel)%nat ->
  exists l' : list io_event,
    _recv fuel (mkPort chunks l) = (Return (int_of_byte r0, rest), mkPort [] l')
    /\ written l' = written l.
Proof.
  intros Hne Hcat Hsize Hfuel.
  destruct chunks as [| c cs]; [discriminate |].
  inversion Hne as [| c' cs' Hc Hcs]; subst c' cs'.
  destruct c as [| b' c0]; [contradiction |].
  cbn [List.concat app] in Hcat. injection Hcat as -> Hbody.
  destruct (requeue_chunks c0 cs Hcs) as [Hne' Hcat'].
  unfold _recv. cbn [sp_read ScriptSerial]. rewrite script_read_one.
  unfold bind.
  destruct (script_loop_complete _ fuel (int_of_byte b) (int_of_byte b) []
              (l ++ [EvRead 1 [b]]) Hne') as (l' & Hrun & Hw).
  - rewrite Hcat', Hbody. exact Hsize.
  - exact Hfuel.
  - rewrite Hrun, Hcat', Hbody. cbn [app ret].
    exists l'. split; [reflexivity |].
    rewrite Hw, written_app. cbn [written]. apply app_nil_r.
Qed.

(** C5: for every command code that fits a byte and every payload of at
    most 254 bytes, [_send] writes the frame
    [len(payload)+1, cmd_code] + payload, and [_recv] on a port that delivers
    these bytes, in whatever non-empty chunks, returns the command code and
    the payload as they were. *)
Theorem encode_decode_roundtrip (cmd_code : Z) (payload : bytes)
    (chunks : list bytes) (l : list io_event) (fuel : nat) :
  0 <= cmd_code <= 255 ->
  len payload <= 254 ->
  Forall (fun c : bytes => c <> []) chunks ->
  List.concat chunks
  = written (log (snd (_send cmd_code payload (mkPort [] [])))) ->
  len payload < Z.of_nat fuel ->
  fst (_send cmd_code payload (mkPort [] [])) = Return tt
  /\ map int_of_byte
       (written (log (snd (_send cmd_code payload (mkPort [] [])))))
     = (len payload + 1) :: cmd_code :: map int_of_byte payload
  /\ exists l' : list io_event,
       _recv fuel (mkPort chunks l) = (Return (cmd_code, payload), mkPort [] l').
Proof.
  intros Hcmd Hlen Hne Hcat Hfuel.
  pose proof (len_nonneg payload) as Hpos.
  destruct (byte_of_int_some (len payload + 1)) as [bl Hbl]; [lia |].
  destruct (byte_of_int_some cmd_code Hcmd) as [bc Hbc].
  rewrite (script_send _ _ _ _ _ Hbl Hbc) in *.
  cbn [fst snd log app written] in *. rewrite app_nil_r in Hcat.
  pose proof (int_of_byte_of_int _ _ Hbl) as Hl.
  pose proof (int_of_byte_of_int _ _ Hbc) as Hc.
  split; [reflexivity |]. split.
  - rewrite app_nil_r. cbn [map]. now rewrite Hl, Hc.
  - destruct (script_recv_frame chunks bl bc payload fuel l Hne Hcat)
      as (l' & Hrun & _).
    + rewrite Hl, len_cons. lia.
    + lia.
    + exists l'. now rewrite Hrun, Hc.
Qed.

(** C2, amended: when the port delivers the length byte and then fewer body
    bytes than it declares before a read comes back empty, [_recv] raises
    [BusError] -- the class of the device-reported bus errors, not a class
    of its own, and not [Timeout] -- whose message carries the number of
    body bytes received and the number declared. *)
Theorem recv_short_response (chunks : list bytes) (b : byte) (body : bytes)
    (rest : list bytes) (l : list io_event) (fuel : nat) :
  Forall (fun c : bytes => c <> []) chunks ->
  List.concat chunks = b :: body ->
  len body < int_of_byte b ->
  int_of_byte b <= Z.of_nat fuel ->
  exists l' : list io_event,
    _recv fuel (mkPort (chunks ++ [] :: rest) l)
    = (Raise (BusError (short_response_msg (len body) (int_of_byte b))),
       mkPort rest l').
Proof.
  intros Hne Hcat Hshort Hfuel.
  destruct chunks as [| c cs]; [discriminate |].
  inversion Hne as [| c' cs' Hc Hcs]; subst c' cs'.
  destruct c as [| b' c0]; [contradiction |].
  cbn [List.concat app] in Hcat. injection Hcat as -> Hbody.
  destruct (requeue_chunks c0 cs Hcs) as [Hne' Hcat'].
  unfold _recv. cbn [sp_read ScriptSerial app]. rewrite script_read_one.
  unfold bind.
  rewrite requeue_app.
  destruct (script_loop_starved _ fuel (int_of_byte b) (int_of_byte b) []
              rest (l ++ [EvRead 1 [b]]) Hne') as (l' & Hrun).
  - rewrite Hcat', Hbody. exact Hshort.
  - lia.
  - rewrite Hrun, Hcat', Hbody. exists l'. reflexivity.
Qed.

(** The port is what [_recv] left, whatever [transaction] makes of the
    response. *)
Lemma transaction_port (fuel : nat) (address read_size : Z)
    (payload hdr : bytes) (p p1 : ScriptPort) :
  1 <= len payload ->
  pack [fmt_B; fmt_B] [address; read_size] = Return hdr ->
  _send CMD_TRANSACTION (hdr ++ payload) p = (Return tt, p1) ->
  snd (transaction fuel address payload read_size p) = snd (_recv fuel p1).
Proof.
  intros Hlen Hpack Hsend. unfold transaction.
  destruct (Z.ltb_spec (len payload) 1) as [Hlt | _]; [lia |].
  unfold bind at 1, lift. rewrite Hpack.
  unfold bind at 1. rewrite Hsend. unfold bind.
  destruct (_recv fuel p1) as [[[status resp] | e |] p2]; cbn [snd];
    [| reflexivity | reflexivity].
  destruct (status =? RESPONSE_BAD_PARAMETERS); [reflexivity |].
  destruct (negb (status =? RESPONSE_OK)).
  - unfold raise_BusError.
    destruct (BusError__init__ (inl status)); reflexivity.
  - destruct (negb (len resp =? read_size)); reflexivity.
Qed.

(** C6: a [transaction] whose payload is empty raises [ValueError] and
    leaves the port as it found it, on every port: nothing is written and
    nothing is read.  With a payload of at least one byte (and arguments
    that fit the frame) what goes out is one frame: length, the transaction
    command code, the address, the read size, then the write data. *)
Theorem transaction_payload_precondition :
  (forall (Port : Type) (S : Serial Port) (fuel : nat)
          (address read_size : Z) (payload : bytes) (p : Port),
      len payload = 0 ->
      transaction fuel address payload read_size p
      = (Raise (ValueError "at least one byte of payload is required" []), p))
  /\ (forall (fuel : nat) (address read_size : Z) (payload : bytes)
             (p : ScriptPort),
         1 <= len payload <= 252 ->
         0 <= address <= 255 ->
         0 <= read_size <= 255 ->
         map int_of_byte
           (written (log (snd (transaction fuel address payload read_size p))))
         = map int_of_byte (written (log p))
           ++ [len payload + 3; CMD_TRANSACTION; address; read_size]
           ++ map int_of_byte payload).
Proof.
  split.
  - intros Port S fuel address read_size payload p Hlen.
    now apply transaction_empty_payload.
  - intros fuel address read_size payload p Hlen Haddr Hsize.
    destruct (byte_of_int_some address Haddr) as [ba Hba].
    destruct (byte_of_int_some read_size Hsize) as [br Hbr].
    destruct (byte_of_int_some (len ([ba; br] ++ payload) + 1)) as [bl Hbl].
    { rewrite len_app. change (len [ba; br]) with 2. lia. }
    destruct (byte_of_int_some CMD_TRANSACTION) as [bc Hbc];
      [unfold CMD_TRANSACTION; lia |].
    rewrite (transaction_port fuel address read_size payload [ba; br] p _
               (proj1 Hlen) (pack_BB _ _ _ _ Hba Hbr)
               (script_send _ _ _ _ _ Hbl Hbc)).
    rewrite script_recv_written. cbn [log].
    rewrite written_app. cbn [written app]. rewrite app_nil_r, map_app.
    cbn [map].
    rewrite (int_of_byte_of_int _ _ Hbl), (int_of_byte_of_int _ _ Hbc),
      (int_of_byte_of_int _ _ Hba), (int_of_byte_of_int _ _ Hbr).
    rewrite len_app. change (len [ba; br]) with 2.
    replace (2 + len payload + 1) with (len payload + 3) by lia.
    reflexivity.
Qed.


(** ** Pin control *)

(** The values [digital_write] accepts, with the code each resolves to.
    The integers 1 and 0 are accepted because they are equal to [True] and
    [False]; 18, the raw code of toggle, is not a key of the dict. *)
Lemma pin_status_accepted (v : pyval) (c : Z) :
  dict_get py_eq pin_status_dict v = Some c <->
  (v = PStr "high" /\ c = PIN_STATUS_HIGH)
  \/ (v = PStr "low" /\ c = PIN_STATUS_LOW)
  \/ (v = PStr "toggle" /\ c = PIN_STATUS_TOGGLE)
  \/ (v = PBool true /\ c = PIN_STATUS_HIGH)
  \/ (v = PBool false /\ c = PIN_STATUS_LOW)
  \/ (v = PInt 1 /\ c = PIN_STATUS_HIGH)
  \/ (v = PInt 0 /\ c = PIN_STATUS_LOW)
  \/ (v = PInt PIN_STATUS_HIGH /\ c = PIN_STATUS_HIGH)
  \/ (v = PInt PIN_STATUS_LOW /\ c = PIN_STATUS_LOW).
Proof.
  split.
  - destruct v as [s | [|] | z]; cbn [dict_get pin_status_dict py_eq].
    + destruct (String.eqb_spec "high" s) as [<- | _];
        [intros [= <-]; tauto |].
      destruct (String.eqb_spec "low" s) as [<- | _];
        [intros [= <-]; tauto |].
      destruct (String.eqb_spec "toggle" s) as [<- | _];
        [intros [= <-]; tauto | discriminate].
    + cbn. intros [= <-]. tauto.
    + cbn. intros [= <-]. tauto.
    + cbn [int_of_bool].
      destruct (Z.eqb_spec 1 z) as [<- | _]; [intros [= <-]; tauto |].
      destruct (Z.eqb_spec 0 z) as [<- | _]; [intros [= <-]; tauto |].
      destruct (Z.eqb_spec PIN_STATUS_HIGH z) as [<- | _];
        [intros [= <-]; tauto |].
      destruct (Z.eqb_spec PIN_STATUS_LOW z) as [<- | _];
        [intros [= <-]; tauto | discriminate].
  - intros H; repeat destruct H as [H | H]; destruct H as [-> ->];
      reflexivity.
Qed.


(** The sibling [set_pin_mode] does take the raw code of its one mode. *)
Lemma set_pin_mode_accepts_raw_code :
  dict_get py_eq pin_mode_dict (PInt PIN_MODE_DIGITAL_OUT)
  = Some PIN_MODE_DIGITAL_OUT.
Proof. reflexivity. Qed.

(** C8, at the input where the code departs from the claim: the raw device
    code of toggle (0x12) is not among the keys of the status dict, unlike
    those of high and of low, so [digital_write] raises [ValueError] on it,
    and sends nothing, on every port. *)
Theorem digital_write_raw_toggle_rejected :
  forall (Port : Type) (S : Serial Port) (fuel : nat) (pin_number : Z)
         (p : Port),
    digital_write fuel pin_number (PInt PIN_STATUS_TOGGLE) p
    = (Raise (ValueError "wrong pin status {!r}" [PInt 18]), p)
    /\ dict_get py_eq pin_status_dict (PInt PIN_STATUS_HIGH)
       = Some PIN_STATUS_HIGH
    /\ dict_get py_eq pin_status_dict (PInt PIN_STATUS_LOW)
       = Some PIN_STATUS_LOW
    /\ dict_get py_eq pin_status_dict (PStr "toggle")
       = Some PIN_STATUS_TOGGLE.
Proof. intros Port S fuel pin_number p. repeat split. Qed.

(** ** Session construction *)

(** C1, at the inputs where the code departs from the claim: the guard of
    [BusAdapterI2CMaster.__init__] joins its two tests with [and], so an init
    response of status ok with payload [0x01], and one of status error with
    an empty payload, both construct the session without [ProtocolError];
    only a non-ok status together with a non-empty payload raises. *)
Theorem init_accepts_malformed_response :
  fst (BusAdapterI2CMaster__init__ 255 (mkPort [[x02; x00; x01]] []))
  = Return tt
  /\ fst (BusAdapterI2CMaster__init__ 255 (mkPort [[x01; x01]] []))
     = Return tt
  /\ fst (BusAdapterI2CMaster__init__ 255 (mkPort [[x02; x01; x01]] []))
     = Raise ProtocolError
  /\ fst (BusAdapterI2CMaster__init__ 255 (mkPort [[x01; x00]] []))
     = Return tt.
Proof. repeat split; vm_compute; reflexivity. Qed.


(** ** The claims on concrete exchanges *)

(** C2 as first stated fails: with length byte 5 and two body bytes before
    the port runs dry, what [_recv] raises is a [BusError], the very class
    [write] raises when the device reports a nack on address; it is not of a
    class apart from the device-reported bus errors. *)
Lemma short_response_is_a_bus_error :
  fst (_recv 255 (mkPort [[x05]; [x01; x02]; []] []))
  = Raise (BusError "short response; got 2 bytes, expected 5")
  /\ fst (write 255 80 [x01; x02] (mkPort [[x01; x06]] []))
     = Raise (BusError "nack on address")
  /\ ~ (exists e : exn,
          fst (_recv 255 (mkPort [[x05]; [x01; x02]; []] [])) = Raise e
          /\ class_of e <> ClsBusError).
Proof.
  split; [vm_compute; reflexivity |].
  split; [vm_compute; reflexivity |].
  intros (e & He & Hclass). vm_compute in He.
  injection He as <-. apply Hclass. reflexivity.
Qed.

(** C9 as first stated fails for [write]: a response of status error (1)
    with the payload [0xFF] makes [write] raise [ProtocolError]; no
    [BusError] is built and no [KeyError] reaches the caller. *)
Lemma write_unmapped_status_with_payload :
  (exists p2 : ScriptPort,
      responds 255 CMD_WRITE [x50; x01; x02] (mkPort [[x02; x01; xff]] [])
        RESPONSE_ERROR [xff] p2)
  /\ fst (write 255 80 [x01; x02] (mkPort [[x02; x01; xff]] []))
     = Raise ProtocolError
  /\ fst (write 255 80 [x01; x02] (mkPort [[x02; x01; xff]] []))
     <> Raise (KeyError RESPONSE_ERROR).
Proof.
  split; [| split].
  - eexists. exists (snd (_send CMD_WRITE [x50; x01; x02]
                            (mkPort [[x02; x01; xff]] []))).
    split; vm_compute; reflexivity.
  - vm_compute. reflexivity.
  - vm_compute. discriminate.
Qed.

(** C7 on a port whose first read window is empty. *)
Lemma recv_timeout_witness :
  fst (sp_read (mkPort [[]; [x01; x00]] []) 1) = []
  /\ _recv 255 (mkPort [[]; [x01; x00]] [])
     = (Raise Timeout, snd (sp_read (mkPort [[]; [x01; x00]] []) 1)).
Proof.
  split; [reflexivity |].
  apply (@recv_timeout_on_empty_length_read ScriptPort ScriptSerial 255
           (mkPort [[]; [x01; x00]] [])).
  reflexivity.
Defined.

(** C10 on a scripted port that delivers five bytes in three reads. *)
Lemma recv_loop_terminates_witness :
  0 <= 5
  /\ fst (_recv_loop (Z.to_nat 5) 5 5 []
            (mkPort [[x01; x02]; [x03]; [x04; x05]] []))
     <> OutOfFuel.
Proof.
  split; [lia |].
  apply (proj2 (@recv_loop_terminates ScriptPort ScriptSerial
                  script_read_bounded 5 5 []
                  (mkPort [[x01; x02]; [x03]; [x04; x05]] [])
                  ltac:(lia))).
Defined.

(** C3 on a device that answers nack-on-address. *)
Lemma write_status_handling_witness :
  write 255 80 [x01; x02] (mkPort [[x01; x06]] [])
  = (Raise (BusError "nack on address"),
     snd (_recv 255
            (snd (_send CMD_WRITE [x50; x01; x02] (mkPort [[x01; x06]] []))))).
Proof.
  assert (pack [fmt_B] [80] = Return [x50]) as Hpack by reflexivity.
  assert (responds 255 CMD_WRITE ([x50] ++ [x01; x02])
            (mkPort [[x01; x06]] []) RESPONSE_NACK_ON_ADDRESS []
            (snd (_recv 255
                    (snd (_send CMD_WRITE [x50; x01; x02]
                            (mkPort [[x01; x06]] []))))))
    as Hresp.
  { exists (snd (_send CMD_WRITE [x50; x01; x02] (mkPort [[x01; x06]] []))).
    split; reflexivity. }
  exact (proj1 (proj2 (proj2 (write_status_handling 255 80 [x01; x02] [x50]
                                _ _ _ _ Hpack Hresp)) eq_refl) eq_refl).
Defined.

(** C4 on a device that answers ok with the four bytes asked for. *)
Lemma read_ok_exact_length_witness :
  read 255 80 4 (mkPort [[x05; x00; x0a; x0b; x0c; x0d]] [])
  = (Return [x0a; x0b; x0c; x0d],
     snd (_recv 255
            (snd (_send CMD_READ [x50; x04]
                    (mkPort [[x05; x00; x0a; x0b; x0c; x0d]] []))))).
Proof.
  assert (pack [fmt_B; fmt_B] [80; 4] = Return [x50; x04]) as Hpack
      by reflexivity.
  assert (responds 255 CMD_READ [x50; x04]
            (mkPort [[x05; x00; x0a; x0b; x0c; x0d]] []) RESPONSE_OK
            [x0a; x0b; x0c; x0d]
            (snd (_recv 255
                    (snd (_send CMD_READ [x50; x04]
                            (mkPort [[x05; x00; x0a; x0b; x0c; x0d]] []))))))
    as Hresp.
  { exists (snd (_send CMD_READ [x50; x04]
                   (mkPort [[x05; x00; x0a; x0b; x0c; x0d]] []))).
    split; reflexivity. }
  exact (proj1 (read_ok_exact_length 255 80 4 [x50; x04] _ _ _ Hpack Hresp)
           eq_refl).
Defined.

(** C5 on the write frame for address 0x50 and two data bytes, delivered in
    three chunks. *)
Lemma encode_decode_roundtrip_witness :
  exists l' : list io_event,
    _recv 255 (mkPort [[x04; x03]; [x50]; [x01; x02]] [])
    = (Return (CMD_WRITE, [x50; x01; x02]), mkPort [] l').
Proof.
  apply (encode_decode_roundtrip CMD_WRITE [x50; x01; x02]
           [[x04; x03]; [x50]; [x01; x02]] [] 255).
  - unfold CMD_WRITE. lia.
  - unfold len. cbn [List.length]. lia.
  - repeat constructor; discriminate.
  - reflexivity.
  - reflexivity.
Defined.

(** C2, amended, on the example of the claim: length byte 5, two body
    bytes, then nothing. *)
Lemma recv_short_response_witness :
  exists l' : list io_event,
    _recv 255 (mkPort [[x05]; [x01; x02]; []] [])
    = (Raise (BusError "short response; got 2 bytes, expected 5"),
       mkPort [] l').
Proof.
  apply (recv_short_response [[x05]; [x01; x02]] x05 [x01; x02] [] [] 255).
  - repeat constructor; discriminate.
  - reflexivity.
  - reflexivity.
  - vm_compute. discriminate.
Defined.

(** C6 on the scripted port: an empty payload leaves the log empty, and a
    one-byte payload goes out as [4, 5, 0x50, 1, 7]. *)
Lemma transaction_payload_precondition_witness :
  transaction 255 80 [] 1 (mkPort [[x02; x00; x09]] [])
  = (Raise (ValueError "at least one byte of payload is required" []),
     mkPort [[x02; x00; x09]] [])
  /\ map int_of_byte
       (written (log (snd (transaction 255 80 [x07] 1
                             (mkPort [[x02; x00; x09]] [])))))
     = map int_of_byte (written [])
       ++ [len [x07] + 3; CMD_TRANSACTION; 80; 1] ++ map int_of_byte [x07].
Proof.
  split.
  - apply (proj1 transaction_payload_precondition ScriptPort ScriptSerial
             255%nat 80 1 [] (mkPort [[x02; x00; x09]] [])).
    reflexivity.
  - apply (proj2 transaction_payload_precondition 255%nat 80 1 [x07]
             (mkPort [[x02; x00; x09]] [])).
    + unfold len. cbn [List.length]. lia.
    + lia.
    + lia.
Defined.

(** C9, amended, on a [read] answered with status error (1). *)
Lemma unmapped_status_key_error_witness :
  read 255 80 4 (mkPort [[x01; x01]] [])
  = (Raise (KeyError RESPONSE_ERROR),
     snd (_recv 255
            (snd (_send CMD_READ [x50; x04] (mkPort [[x01; x01]] []))))).
Proof.
  assert (responds 255 CMD_READ [x50; x04] (mkPort [[x01; x01]] [])
            RESPONSE_ERROR []
            (snd (_recv 255
                    (snd (_send CMD_READ [x50; x04]
                            (mkPort [[x01; x01]] []))))))
    as Hresp.
  { exists (snd (_send CMD_READ [x50; x04] (mkPort [[x01; x01]] []))).
    split; reflexivity. }
  exact (proj1 (proj2 (unmapped_status_key_error 255%nat _ _ RESPONSE_ERROR []
                         (or_introl eq_refl)))
           80 4 [x50; x04] eq_refl Hresp).
Defined.


(** ** Frames on any port *)

Section Frames.

Context {Port : Type} `{Serial Port}.

(** [_send] puts a frame on the wire when the command code fits a byte and
    the data leaves room for it in the length byte: the length byte counts
    the command byte and the data.  Outside these bounds [struct.pack]
    raises and the port is left as it was. *)
Theorem send_frame_bounds (cmd_code : Z) (data : bytes) (p : Port) :
  (0 <= cmd_code <= 255 -> len data <= 254 ->
   exists bl bc : byte,
     int_of_byte bl = len data + 1
     /\ int_of_byte bc = cmd_code
     /\ _send cmd_code data p = (Return tt, sp_write p (bl :: bc :: data)))
  /\ (cmd_code < 0 \/ 255 < cmd_code \/ 254 < len data ->
      _send cmd_code data p = (Raise StructError, p)).
Proof.
  pose proof (len_nonneg data) as Hpos. split.
  - intros Hcmd Hlen.
    destruct (byte_of_int_some (len data + 1)) as [bl Hbl]; [lia |].
    destruct (byte_of_int_some cmd_code Hcmd) as [bc Hbc].
    exists bl, bc.
    split; [exact (int_of_byte_of_int _ _ Hbl) |].
    split; [exact (int_of_byte_of_int _ _ Hbc) |].
    unfold _send, bind, lift.
    cbn [pack pack_field rbind]. rewrite Hbl. cbn [rbind]. rewrite Hbc.
    reflexivity.
  - intros Hout. unfold _send, bind, lift. cbn [pack pack_field rbind].
    destruct (byte_of_int (len data + 1)) as [bl |] eqn:Hbl;
      [| reflexivity].
    cbn [rbind].
    destruct (byte_of_int cmd_code) as [bc |] eqn:Hbc; [| reflexivity].
    apply int_of_byte_of_int in Hbl, Hbc.
    pose proof (int_of_byte_range bl). pose proof (int_of_byte_range bc).
    lia.
Qed.

(** A length byte of zero announces a frame without a status byte: [_recv]
    reads nothing more and fails on [response[0]] with [IndexError]. *)
Theorem recv_empty_frame (fuel : nat) (p : Port) (b : byte) (more : bytes) :
  fst (sp_read p 1) = b :: more ->
  int_of_byte b = 0 ->
  _recv fuel p = (Raise IndexError, snd (sp_read p 1)).
Proof.
  intros Hread Hzero. unfold _recv.
  destruct (sp_read p 1) as [response_size p1]. cbn [fst snd] in *.
  subst response_size. unfold bind. rewrite Hzero, recv_loop_done.
  reflexivity.
Qed.

(** The loop returns as many bytes as it had plus as many as it was asked
    to read. *)
Lemma recv_loop_length (fuel : nat) :
  forall (size bytes_to_read : Z) (response r : bytes) (p p' : Port),
    _recv_loop fuel size bytes_to_read response p = (Return r, p') ->
    len r = len response + bytes_to_read.
Proof.
  induction fuel as [| fuel IH]; intros size left response r p p' Hrun.
  - cbn [_recv_loop] in Hrun.
    destruct (Z.eqb_spec left 0) as [-> | _]; [| discriminate].
    injection Hrun as <- _. lia.
  - destruct (Z.eq_dec left 0) as [-> | Hleft].
    + rewrite recv_loop_done in Hrun. injection Hrun as <- _. lia.
    + rewrite (recv_loop_turn _ _ _ _ _ Hleft) in Hrun.
      destruct (fst (sp_read p left)) as [| b block]; [discriminate |].
      apply IH in Hrun. rewrite len_app in Hrun. lia.
Qed.

(** Whatever [_recv] returns is a byte-sized status and a payload one byte
    shorter than the length byte announced: at most 254 bytes. *)
Theorem recv_result_bounds (fuel : nat) (p p2 : Port) (status : Z)
    (payload : bytes) :
  _recv fuel p = (Return (status, payload), p2) ->
  0 <= status <= 255
  /\ len payload <= 254
  /\ exists (b : byte) (more : bytes),
       fst (sp_read p 1) = b :: more /\ len payload + 1 = int_of_byte b.
Proof.
  unfold _recv. destruct (sp_read p 1) as [response_size p1]. cbn [fst].
  destruct response_size as [| b more]; [discriminate |].
  unfold bind.
  destruct (_recv_loop fuel (int_of_byte b) (int_of_byte b) [] p1)
    as [[response | e |] p1'] eqn:Hloop; [| discriminate | discriminate].
  destruct response as [| r0 rest]; [discriminate |].
  intros [= <- <- <-].
  apply recv_loop_length in Hloop. rewrite len_cons in Hloop.
  change (len (@nil byte)) with 0 in Hloop.
  pose proof (int_of_byte_range b). pose proof (int_of_byte_range r0).
  split; [assumption |]. split; [lia |].
  exists b, more. split; [reflexivity | lia].
Qed.

End Frames.


(** ** One frame at a time on the scripted port *)

Lemma reads_app (l1 l2 : list io_event) :
  reads (l1 ++ l2) = (reads l1 + reads l2)%nat.
Proof.
  induction l1 as [| ev l1 IH]; [reflexivity |].
  destruct ev; cbn [reads app]; rewrite IH; reflexivity.
Qed.

(** A read on the scripted port adds one read event to the log. *)
Lemma script_read_log (p : ScriptPort) (n : Z) :
  log (snd (script_read p n)) = log p ++ [EvRead n (fst (script_read p n))].
Proof. unfold script_read. destruct (pending p); reflexivity. Qed.

(** The loop on a script that holds at least the bytes still to be read: it
    takes exactly that many and leaves the others pending, in order. *)
Lemma script_loop_prefix (chunks : list bytes) :
  forall (fuel : nat) (size bytes_to_read : Z) (response : bytes)
         (tail : list bytes) (l : list io_event),
    Forall (fun c : bytes => c <> []) chunks ->
    0 <= bytes_to_read <= len (List.concat chunks) ->
    (Z.to_nat bytes_to_read <= fuel)%nat ->
    exists (chunks' : list bytes) (l' : list io_event),
      _recv_loop fuel size bytes_to_read response (mkPort (chunks ++ tail) l)
      = (Return (response
                 ++ firstn (Z.to_nat bytes_to_read) (List.concat chunks)),
         mkPort (chunks' ++ tail) l')
      /\ Forall (fun c : bytes => c <> []) chunks'
      /\ List.concat chunks'
         = skipn (Z.to_nat bytes_to_read) (List.concat chunks).
Proof.
  induction chunks as [| c cs IH];
    intros fuel size left response tail l Hne Hleft Hfuel.
  - cbn [List.concat] in *. change (len (@nil byte)) with 0 in Hleft.
    assert (left = 0) as -> by lia. rewrite recv_loop_done.
    exists [], l. cbn. rewrite app_nil_r. repeat split. constructor.
  - destruct (Z.eq_dec left 0) as [-> | Hnz].
    { rewrite recv_loop_done. exists (c :: cs), l.
      cbn [Z.to_nat firstn skipn]. rewrite app_nil_r. repeat split.
      exact Hne. }
    inversion Hne as [| c' cs' Hc Hcs]; subst c' cs'.
    cbn [List.concat] in *. rewrite len_app in Hleft.
    destruct fuel as [| fuel]; [lia |].
    rewrite recv_loop_turn by exact Hnz.
    cbn [sp_read ScriptSerial app].
    destruct (Z_le_gt_dec (len c) left) as [Hwhole | Hpart].
    + rewrite script_read_whole by exact Hwhole. cbn [fst snd].
      destruct c as [| b c]; [contradiction |].
      assert (0 < len (b :: c)) as Hpos.
      { rewrite len_cons. pose proof (len_nonneg c). lia. }
      destruct (IH fuel size (left - len (b :: c)) (response ++ b :: c) tail
                  (l ++ [EvRead left (b :: c)]) Hcs)
        as (chunks' & l' & Hrun & Hne' & Hcat); [lia | lia |].
      exists chunks', l'. rewrite Hrun.
      assert (Z.to_nat left
              = (List.length (b :: c) + Z.to_nat (left - len (b :: c)))%nat)
        as Hsplit by (unfold len in *; lia).
      split; [| split; [exact Hne' |]].
      * rewrite Hsplit, firstn_app_2, <- app_assoc. reflexivity.
      * rewrite Hcat, Hsplit, skipn_app.
        rewrite (skipn_all2 (b :: c)) by apply Nat.le_add_r.
        rewrite Nat.add_comm, Nat.add_sub. reflexivity.
    + unfold script_read. cbn [pending log fst snd].
      assert (Z.to_nat left < List.length c)%nat as Hlt
          by (unfold len in *; lia).
      assert (firstn (Z.to_nat left) c <> []) as Hgot.
      { intros Hnil. apply (f_equal (@List.length byte)) in Hnil.
        rewrite length_firstn in Hnil. cbn [List.length] in Hnil. lia. }
      assert (skipn (Z.to_nat left) c <> []) as Hrest.
      { intros Hnil. apply (f_equal (@List.length byte)) in Hnil.
        rewrite length_skipn in Hnil. cbn [List.length] in Hnil. lia. }
      destruct (firstn (Z.to_nat left) c) as [| g got] eqn:Hfirst;
        [contradiction |].
      assert (left - len (g :: got) = 0) as ->.
      { unfold len. rewrite <- Hfirst, length_firstn. lia. }
      rewrite recv_loop_done.
      destruct (skipn (Z.to_nat left) c) as [| s rest] eqn:Hskip;
        [contradiction |].
      cbn [requeue].
      exists ((s :: rest) :: cs), (l ++ [EvRead left (g :: got)]).
      split; [| split].
      * rewrite firstn_app.
        replace (Z.to_nat left - List.length c)%nat with O by lia.
        cbn [firstn]. rewrite app_nil_r, Hfirst. reflexivity.
      * constructor; [discriminate | exact Hcs].
      * cbn [List.concat]. rewrite skipn_app.
        replace (Z.to_nat left - List.length c)%nat with O by lia.
        cbn [skipn]. rewrite Hskip. reflexivity.
Qed.

Lemma script_recv_prefix (chunks : list bytes) (b r0 : byte)
    (rest extra : bytes) (tail : list bytes) (l : list io_event)
    (fuel : nat) :
  Forall (fun c : bytes => c <> []) chunks ->
  List.concat chunks = b :: r0 :: rest ++ extra ->
  int_of_byte b = len (r0 :: rest) ->
  int_of_byte b <= Z.of_nat fuel ->
  exists (chunks' : list bytes) (l' : list io_event),
    _recv fuel (mkPort (chunks ++ tail) l)
    = (Return (int_of_byte r0, rest), mkPort (chunks' ++ tail) l')
    /\ Forall (fun c : bytes => c <> []) chunks'
    /\ List.concat chunks' = extra.
Proof.
  intros Hne Hcat Hsize Hfuel.
  destruct chunks as [| c cs]; [discriminate |].
  inversion Hne as [| c' cs' Hc Hcs]; subst c' cs'.
  destruct c as [| b' c0]; [contradiction |].
  cbn [List.concat app] in Hcat. injection Hcat as -> Hbody.
  destruct (requeue_chunks c0 cs Hcs) as [Hne' Hcat'].
  unfold _recv. cbn [sp_read ScriptSerial app]. rewrite script_read_one.
  rewrite requeue_app. unfold bind.
  assert (Z.to_nat (int_of_byte b) = List.length (r0 :: rest)) as Hnat
      by (unfold len in Hsize; lia).
  destruct (script_loop_prefix _ fuel (int_of_byte b) (int_of_byte b) []
              tail (l ++ [EvRead 1 [b]]) Hne')
    as (chunks' & l' & Hrun & Hne'' & Hcat'').
  - rewrite Hcat', Hbody.
    change (r0 :: rest ++ extra) with ((r0 :: rest) ++ extra).
    rewrite len_app. pose proof (len_nonneg extra).
    pose proof (int_of_byte_range b). lia.
  - lia.
  - rewrite Hrun, Hcat', Hbody, Hnat.
    change (r0 :: rest ++ extra) with ((r0 :: rest) ++ extra).
    rewrite firstn_app, firstn_all, Nat.sub_diag. cbn [firstn app ret].
    rewrite app_nil_r.
    exists chunks', l'. split; [reflexivity |]. split; [exact Hne'' |].
    rewrite Hcat'', Hcat', Hbody, Hnat.
    change (r0 :: rest ++ extra) with ((r0 :: rest) ++ extra).
    rewrite skipn_app, skipn_all, Nat.sub_diag. reflexivity.
Qed.

(** [_recv] takes its frame off the stream and nothing after it: what the
    port had beyond the frame is still pending, byte for byte, for the next
    call. *)
Theorem recv_leaves_rest (chunks : list bytes) (b r0 : byte)
    (rest extra : bytes) (tail : list bytes) (l : list io_event)
    (fuel : nat) :
  Forall (fun c : bytes => c <> []) chunks ->
  List.concat chunks = b :: r0 :: rest ++ extra ->
  int_of_byte b = len (r0 :: rest) ->
  int_of_byte b <= Z.of_nat fuel ->
  exists (chunks' : list bytes) (l' : list io_event),
    _recv fuel (mkPort (chunks ++ tail) l)
    = (Return (int_of_byte r0, rest), mkPort (chunks' ++ tail) l')
    /\ Forall (fun c : bytes => c <> []) chunks'
    /\ List.concat chunks' = extra.
Proof. exact (script_recv_prefix chunks b r0 rest extra tail l fuel). Qed.

(** Two response frames that arrive back to back, cut into chunks anywhere,
    are decoded by two successive [_recv] calls, each getting its own. *)
Theorem recv_twice (chunks : list bytes) (b1 s1 b2 s2 : byte)
    (payload1 payload2 : bytes) (l : list io_event) (fuel : nat) :
  Forall (fun c : bytes => c <> []) chunks ->
  List.concat chunks
  = (b1 :: s1 :: payload1) ++ (b2 :: s2 :: payload2) ->
  int_of_byte b1 = len (s1 :: payload1) ->
  int_of_byte b2 = len (s2 :: payload2) ->
  (255 <= fuel)%nat ->
  exists l' : list io_event,
    bind (_recv fuel) (fun first =>
      bind (_recv fuel) (fun second => ret (first, second)))
      (mkPort chunks l)
    = (Return ((int_of_byte s1, payload1), (int_of_byte s2, payload2)),
       mkPort [] l').
Proof.
  intros Hne Hcat Hsize1 Hsize2 Hfuel.
  pose proof (int_of_byte_range b1). pose proof (int_of_byte_range b2).
  destruct (script_recv_prefix chunks b1 s1 payload1 (b2 :: s2 :: payload2)
              [] l fuel Hne)
    as (chunks' & l1 & Hfirst & Hne' & Hcat'); [exact Hcat | exact Hsize1 | lia |].
  rewrite !app_nil_r in Hfirst.
  destruct (script_recv_frame chunks' b2 s2 payload2 fuel l1 Hne' Hcat' Hsize2)
    as (l' & Hsecond & _); [lia |].
  exists l'. unfold bind at 1. rewrite Hfirst.
  unfold bind, ret. rewrite Hsecond. reflexivity.
Qed.

(** The loop only reads, and no more often than there are bytes left to
    read. *)
Lemma script_loop_log (fuel : nat) :
  forall (size bytes_to_read : Z) (response : bytes) (p : ScriptPort),
    0 <= bytes_to_read ->
    exists tl : list io_event,
      log (snd (_recv_loop fuel size bytes_to_read response p)) = log p ++ tl
      /\ reads tl = List.length tl
      /\ (List.length tl <= Z.to_nat bytes_to_read)%nat.
Proof.
  induction fuel as [| fuel IH]; intros size left response p Hpos.
  - exists []. rewrite app_nil_r. cbn [_recv_loop].
    destruct (left =? 0); repeat split; cbn; lia.
  - destruct (Z.eq_dec left 0) as [-> | Hleft].
    { exists []. rewrite recv_loop_done, app_nil_r. repeat split; cbn; lia. }
    rewrite recv_loop_turn by exact Hleft.
    pose proof (script_read_bounded p left Hpos) as Hle.
    pose proof (script_read_log p left) as Hlog.
    cbn [sp_read ScriptSerial] in *.
    destruct (fst (script_read p left)) as [| b block] eqn:Hblock.
    + exists [EvRead left []]. cbn [snd]. rewrite Hlog.
      repeat split. cbn [List.length]. lia.
    + rewrite len_cons in Hle. pose proof (len_nonneg block) as Hblk.
      destruct (IH size (left - len (b :: block)) (response ++ b :: block)
                  (snd (script_read p left))) as (tl & Htl & Hreads & Hcount).
      { rewrite len_cons. lia. }
      exists (EvRead left (b :: block) :: tl).
      rewrite Htl, Hlog, <- app_assoc. cbn [app reads List.length].
      rewrite len_cons in Hcount.
      repeat split; [now rewrite Hreads | lia].
Qed.

Lemma script_recv_log (fuel : nat) (p : ScriptPort) :
  exists tl : list io_event,
    log (snd (_recv fuel p)) = log p ++ tl
    /\ reads tl = List.length tl
    /\ (List.length tl <= 256)%nat.
Proof.
  unfold _recv.
  pose proof (script_read_log p 1) as Hlog.
  cbn [sp_read ScriptSerial].
  destruct (script_read p 1) as [response_size p1]. cbn [fst snd] in Hlog.
  destruct response_size as [| size0 more].
  - exists [EvRead 1 []]. cbn [snd raise]. rewrite Hlog.
    repeat split. cbn [List.length]. lia.
  - unfold bind.
    pose proof (int_of_byte_range size0) as Hrange.
    destruct (script_loop_log fuel (int_of_byte size0) (int_of_byte size0)
                [] p1 (proj1 Hrange)) as (tl & Htl & Hreads & Hcount).
    exists (EvRead 1 (size0 :: more) :: tl).
    assert (log p ++ EvRead 1 (size0 :: more) :: tl
            = log p1 ++ tl) as -> by (rewrite Hlog, <- app_assoc; reflexivity).
    cbn [reads List.length]. rewrite Hreads.
    split; [| split; [reflexivity | lia]].
    destruct (_recv_loop fuel (int_of_byte size0) (int_of_byte size0) [] p1)
      as [[response | e |] p2]; cbn [snd] in *;
      [destruct response |..]; exact Htl.
Qed.

(** [_recv] only reads from the port -- it writes nothing and leaves the
    control lines alone -- and it makes at most 256 reads: one for the
    length byte and at most one per byte that the length byte announces. *)
Theorem recv_read_budget (fuel : nat) (p : ScriptPort) :
  exists tl : list io_event,
    log (snd (_recv fuel p)) = log p ++ tl
    /\ reads tl = List.length tl
    /\ (List.length tl <= 256)%nat.
Proof. exact (script_recv_log fuel p). Qed.


(** ** Arguments and statuses of the I2C operations *)

Section MoreOperations.

Context {Port : Type} `{Serial Port}.

Lemma pack_B_out_of_range (v : Z) :
  v < 0 \/ 255 < v -> pack_field fmt_B v = Raise StructError.
Proof.
  intros Hv. unfold pack_field. now rewrite (byte_of_int_none v Hv).
Qed.

Lemma send_too_long (cmd_code : Z) (data : bytes) (p : Port) :
  254 < len data -> _send cmd_code data p = (Raise StructError, p).
Proof.
  intros Hlen. unfold _send, bind, lift. cbn [pack pack_field rbind].
  rewrite (byte_of_int_none (len data + 1)) by lia. reflexivity.
Qed.

(** An address or a read size that does not fit a byte, or a payload too
    long for the length byte of the request, stops [write], [read] and
    [transaction] with [struct.error] before anything is sent. *)
Theorem i2c_argument_bounds (fuel : nat) (address read_size : Z)
    (payload : bytes) (p : Port) :
  (address < 0 \/ 255 < address \/ 253 < len payload ->
   write fuel address payload p = (Raise StructError, p))
  /\ (address < 0 \/ 255 < address \/ read_size < 0 \/ 255 < read_size ->
      read fuel address read_size p = (Raise StructError, p))
  /\ (1 <= len payload ->
      address < 0 \/ 255 < address \/ read_size < 0 \/ 255 < read_size
      \/ 252 < len payload ->
      transaction fuel address payload read_size p = (Raise StructError, p)).
Proof.
  split; [| split].
  - intros Hout. unfold write, bind at 1, lift.
    cbn [pack rbind].
    destruct (byte_of_int address) as [ba |] eqn:Hba.
    + unfold pack_field. rewrite Hba. cbn [rbind app].
      apply int_of_byte_of_int in Hba. pose proof (int_of_byte_range ba).
      unfold bind. rewrite send_too_long; [reflexivity |].
      rewrite len_cons. lia.
    + unfold pack_field. rewrite Hba. reflexivity.
  - intros Hout. unfold read, bind at 1, lift.
    cbn [pack rbind]. unfold pack_field.
    destruct (byte_of_int address) as [ba |] eqn:Hba; [| reflexivity].
    cbn [rbind].
    destruct (byte_of_int read_size) as [br |] eqn:Hbr; [| reflexivity].
    apply int_of_byte_of_int in Hba, Hbr.
    pose proof (int_of_byte_range ba). pose proof (int_of_byte_range br).
    lia.
  - intros Hlen Hout. unfold transaction.
    destruct (Z.ltb_spec (len payload) 1) as [Hlt | _]; [lia |].
    unfold bind at 1, lift. cbn [pack rbind]. unfold pack_field.
    destruct (byte_of_int address) as [ba |] eqn:Hba; [| reflexivity].
    cbn [rbind].
    destruct (byte_of_int read_size) as [br |] eqn:Hbr; [| reflexivity].
    cbn [rbind app].
    apply int_of_byte_of_int in Hba, Hbr.
    pose proof (int_of_byte_range ba). pose proof (int_of_byte_range br).
    unfold bind. rewrite send_too_long; [reflexivity |].
    rewrite !len_cons. lia.
Qed.

(** What [raise BusError(status)] raises, status by status. *)
Lemma raise_BusError_by_status (A : Type) (status : Z) (p : Port) :
  @raise_BusError Port A (inl status) p =
  (Raise (if status =? RESPONSE_SHORT_WRITE then BusError "short write"
          else if status =? RESPONSE_NACK_ON_ADDRESS
          then BusError "nack on address"
          else if status =? RESPONSE_NACK_ON_DATA then BusError "nack on data"
          else if status =? RESPONSE_DATA_TOO_LONG
          then BusError "data too long for transmit buffer"
          else if status =? RESPONSE_OTHER_ERROR then BusError "other error"
          else KeyError status), p).
Proof.
  unfold raise_BusError, BusError__init__.
  cbn [dict_get bus_error_messages].
  repeat match goal with
         | |- context [?a =? ?b] => destruct (Z.eqb_spec a b); subst
         end; try reflexivity; try discriminate; exfalso; congruence.
Qed.

(** A [read] that is answered with a status other than ok raises, whatever
    the response payload: [ProtocolError] on bad-parameters, [BusError] with
    the message of the dict on the five statuses it lists, and the
    [KeyError] of the failed lookup on every other status. *)
Theorem read_error_statuses (fuel : nat) (address read_size : Z)
    (data : bytes) (p p2 : Port) (status : Z) (resp : bytes) :
  pack [fmt_B; fmt_B] [address; read_size] = Return data ->
  responds fuel CMD_READ data p status resp p2 ->
  status <> RESPONSE_OK ->
  read fuel address read_size p =
  (Raise (if status =? RESPONSE_BAD_PARAMETERS then ProtocolError
          else if status =? RESPONSE_SHORT_WRITE then BusError "short write"
          else if status =? RESPONSE_NACK_ON_ADDRESS
          then BusError "nack on address"
          else if status =? RESPONSE_NACK_ON_DATA then BusError "nack on data"
          else if status =? RESPONSE_DATA_TOO_LONG
          then BusError "data too long for transmit buffer"
          else if status =? RESPONSE_OTHER_ERROR then BusError "other error"
          else KeyError status), p2).
Proof.
  intros Hpack Hresp Hstatus.
  rewrite (read_after_exchange _ _ _ _ _ _ _ _ Hpack Hresp).
  destruct (status =? RESPONSE_BAD_PARAMETERS); [reflexivity |].
  apply Z.eqb_neq in Hstatus. rewrite Hstatus. cbn [negb].
  apply raise_BusError_by_status.
Qed.

(** A [transaction] treats a status other than ok as [read] does. *)
Theorem transaction_error_statuses (fuel : nat) (address read_size : Z)
    (payload hdr : bytes) (p p2 : Port) (status : Z) (resp : bytes) :
  1 <= len payload ->
  pack [fmt_B; fmt_B] [address; read_size] = Return hdr ->
  responds fuel CMD_TRANSACTION (hdr ++ payload) p status resp p2 ->
  status <> RESPONSE_OK ->
  transaction fuel address payload read_size p =
  (Raise (if status =? RESPONSE_BAD_PARAMETERS then ProtocolError
          else if status =? RESPONSE_SHORT_WRITE then BusError "short write"
          else if status =? RESPONSE_NACK_ON_ADDRESS
          then BusError "nack on address"
          else if status =? RESPONSE_NACK_ON_DATA then BusError "nack on data"
          else if status =? RESPONSE_DATA_TOO_LONG
          then BusError "data too long for transmit buffer"
          else if status =? RESPONSE_OTHER_ERROR then BusError "other error"
          else KeyError status), p2).
Proof.
  intros Hlen Hpack Hresp Hstatus.
  rewrite (transaction_after_exchange _ _ _ _ _ _ _ _ _ Hlen Hpack Hresp).
  destruct (status =? RESPONSE_BAD_PARAMETERS); [reflexivity |].
  apply Z.eqb_neq in Hstatus. rewrite Hstatus. cbn [negb].
  apply raise_BusError_by_status.
Qed.

(** A [transaction] that is answered ok returns the response payload when
    it has [read_size] bytes, and otherwise raises a [BusError] whose message
    gives the number of bytes that came and the number asked for. *)
Theorem transaction_ok_exact_length (fuel : nat) (address read_size : Z)
    (payload hdr : bytes) (p p2 : Port) (resp : bytes) :
  1 <= len payload ->
  pack [fmt_B; fmt_B] [address; read_size] = Return hdr ->
  responds fuel CMD_TRANSACTION (hdr ++ payload) p RESPONSE_OK resp p2 ->
  (len resp = read_size ->
   transaction fuel address payload read_size p = (Return resp, p2))
  /\ (len resp <> read_size ->
      transaction fuel address payload read_size p
      = (Raise (BusError ("short read; got " ++ str_of_int (len resp)
                            ++ " bytes, expected " ++ str_of_int read_size)),
         p2)).
Proof.
  intros Hlen Hpack Hresp.
  rewrite (transaction_after_exchange _ _ _ _ _ _ _ _ _ Hlen Hpack Hresp).
  cbn [RESPONSE_OK RESPONSE_BAD_PARAMETERS Z.eqb negb].
  split; intros Hsize.
  - apply Z.eqb_eq in Hsize. rewrite Hsize. reflexivity.
  - apply Z.eqb_neq in Hsize. rewrite Hsize. reflexivity.
Qed.

(** ** Pin control, version and debug counters after their exchange *)

Lemma set_pin_mode_after_exchange (fuel : nat) (pin_number : Z)
    (mode : pyval) (code : Z) (data : bytes) (p p2 : Port) (status : Z)
    (resp : bytes) :
  dict_get py_eq pin_mode_dict mode = Some code ->
  pack [fmt_B; fmt_B] [pin_number; code] = Return data ->
  responds fuel CMD_SET_PIN_MODE data p status resp p2 ->
  set_pin_mode fuel pin_number mode p =
  (if status =? RESPONSE_OK then Return tt
   else Raise (AssertionError status), p2).
Proof.
  intros Hcode Hpack (p1 & Hsend & Hrecv).
  unfold set_pin_mode. rewrite Hcode.
  unfold bind at 1, lift. rewrite Hpack.
  unfold bind at 1. rewrite Hsend.
  unfold bind. rewrite Hrecv.
  destruct (status =? RESPONSE_OK); reflexivity.
Qed.

Lemma digital_write_after_exchange (fuel : nat) (pin_number : Z)
    (status_arg : pyval) (code : Z) (data : bytes) (p p2 : Port)
    (status : Z) (resp : bytes) :
  dict_get py_eq pin_status_dict status_arg = Some code ->
  pack [fmt_B; fmt_B] [pin_number; code] = Return data ->
  responds fuel CMD_DIGITAL_WRITE data p status resp p2 ->
  digital_write fuel pin_number status_arg p =
  (if status =? RESPONSE_OK then Return tt
   else Raise (AssertionError status), p2).
Proof.
  intros Hcode Hpack (p1 & Hsend & Hrecv).
  unfold digital_write. rewrite Hcode.
  unfold bind at 1, lift. rewrite Hpack.
  unfold bind at 1. rewrite Hsend.
  unfold bind. rewrite Hrecv.
  destruct (status =? RESPONSE_OK); reflexivity.
Qed.

Lemma get_version_after_exchange (fuel : nat) (p p2 : Port) (status : Z)
    (resp : bytes) :
  responds fuel CMD_VERSION [] p status resp p2 ->
  get_version fuel p =
  (if status =? RESPONSE_OK then Return (decode_ascii (rstrip_nul resp))
   else Raise (AssertionError status), p2).
Proof.
  intros (p1 & Hsend & Hrecv).
  unfold get_version, bind at 1. rewrite Hsend.
  unfold bind. rewrite Hrecv.
  destruct (status =? RESPONSE_OK); reflexivity.
Qed.

Lemma debug1_after_exchange (fuel : nat) (p p2 : Port) (status : Z)
    (resp : bytes) :
  responds fuel CMD_DEBUG1 [] p status resp p2 ->
  debug1 fuel p =
  (if status =? RESPONSE_OK then unpack_hhhh resp
   else Raise (AssertionError status), p2).
Proof.
  intros (p1 & Hsend & Hrecv).
  unfold debug1, bind at 1. rewrite Hsend.
  unfold bind. rewrite Hrecv.
  destruct (status =? RESPONSE_OK); reflexivity.
Qed.

(** [set_pin_mode] and [digital_write] look at nothing but the status of
    the response: ok ends the call normally whatever payload came with it,
    and every other status, the bus-error statuses included, fails the
    [assert] with that status. *)
Theorem pin_calls_assert_ok (fuel : nat) (pin_number : Z) (arg : pyval)
    (code : Z) (data : bytes) (p p2 : Port) (status : Z) (resp : bytes) :
  pack [fmt_B; fmt_B] [pin_number; code] = Return data ->
  (dict_get py_eq pin_mode_dict arg = Some code ->
   responds fuel CMD_SET_PIN_MODE data p status resp p2 ->
   (status = RESPONSE_OK ->
    set_pin_mode fuel pin_number arg p = (Return tt, p2))
   /\ (status <> RESPONSE_OK ->
       set_pin_mode fuel pin_number arg p
       = (Raise (AssertionError status), p2)))
  /\ (dict_get py_eq pin_status_dict arg = Some code ->
      responds fuel CMD_DIGITAL_WRITE data p status resp p2 ->
      (status = RESPONSE_OK ->
       digital_write fuel pin_number arg p = (Return tt, p2))
      /\ (status <> RESPONSE_OK ->
          digital_write fuel pin_number arg p
          = (Raise (AssertionError status), p2))).
Proof.
  intros Hpack. split; intros Hcode Hresp.
  - rewrite (set_pin_mode_after_exchange _ _ _ _ _ _ _ _ _ Hcode Hpack Hresp).
    split; intros Hstatus.
    + now rewrite Hstatus.
    + apply Z.eqb_neq in Hstatus. now rewrite Hstatus.
  - rewrite (digital_write_after_exchange _ _ _ _ _ _ _ _ _ Hcode Hpack Hresp).
    split; intros Hstatus.
    + now rewrite Hstatus.
    + apply Z.eqb_neq in Hstatus. now rewrite Hstatus.
Qed.

(** Every mode that [set_pin_mode] does not know -- anything but
    'digital_out', the code 1 and [True], which is equal to 1 -- is turned
    away with [ValueError] before the port is touched. *)
Theorem set_pin_mode_closed_set (fuel : nat) (pin_number : Z) (mode : pyval)
    (p : Port) :
  (mode = PStr "digital_out" \/ mode = PInt 1 \/ mode = PBool true ->
   dict_get py_eq pin_mode_dict mode = Some PIN_MODE_DIGITAL_OUT)
  /\ (mode <> PStr "digital_out" -> mode <> PInt 1 -> mode <> PBool true ->
      set_pin_mode fuel pin_number mode p
      = (Raise (ValueError "wrong pin mode {!r}" [mode]), p)).
Proof.
  split.
  - intros [-> | [-> | ->]]; reflexivity.
  - intros Hstr Hint Hbool. unfold set_pin_mode.
    destruct mode as [s | [|] | z]; cbn [dict_get pin_mode_dict py_eq].
    + destruct (String.eqb_spec "digital_out" s) as [<- | _];
        [contradiction | reflexivity].
    + contradiction.
    + reflexivity.
    + unfold PIN_MODE_DIGITAL_OUT.
      destruct (Z.eqb_spec 1 z) as [<- | _]; [contradiction | reflexivity].
Qed.


End MoreOperations.


(** ** Version string and debug counters *)

Lemma rstrip_nul_nuls (n : nat) : rstrip_nul (repeat x00 n) = [].
Proof.
  induction n as [| n IH]; [reflexivity |].
  cbn [repeat rstrip_nul]. rewrite IH. reflexivity.
Qed.

Lemma rstrip_nul_padding (bs : bytes) (n : nat) :
  rstrip_nul (bs ++ repeat x00 n) = rstrip_nul bs.
Proof.
  induction bs as [| b bs IH]; [apply rstrip_nul_nuls |].
  cbn [app rstrip_nul]. rewrite IH. reflexivity.
Qed.

Lemma rstrip_nul_keeps (bs : bytes) :
  last bs x01 <> x00 -> rstrip_nul bs = bs.
Proof.
  induction bs as [| b bs IH]; [reflexivity |].
  intros Hlast. destruct bs as [| b' bs].
  - cbn in *. destruct (Byte.eqb b x00) eqn:Hb; [| reflexivity].
    apply Byte.byte_dec_bl in Hb. contradiction.
  - change (rstrip_nul (b :: b' :: bs))
      with (match rstrip_nul (b' :: bs) with
            | [] => if Byte.eqb b x00 then [] else [b]
            | (_ :: _) as tl' => b :: tl'
            end).
    rewrite IH by exact Hlast. reflexivity.
Qed.

Lemma decode_ascii_text (bs : bytes) :
  Forall (fun b : byte => int_of_byte b < 128) bs ->
  forall position : Z,
    decode_ascii_from position bs = Text (string_of_list_byte bs).
Proof.
  induction 1 as [| b bs Hb Hbs IH]; intros position; [reflexivity |].
  cbn [decode_ascii_from].
  apply Z.ltb_lt in Hb. rewrite Hb, IH. reflexivity.
Qed.

Lemma decode_ascii_stops (pre : bytes) (b : byte) (post : bytes) :
  Forall (fun c : byte => int_of_byte c < 128) pre ->
  128 <= int_of_byte b ->
  forall position : Z,
    decode_ascii_from position (pre ++ b :: post)
    = UnicodeDecodeError (position + len pre) b.
Proof.
  intros Hpre Hb. induction Hpre as [| c pre Hc Hpre IH]; intros position.
  - cbn [app decode_ascii_from].
    destruct (Z.ltb_spec (int_of_byte b) 128) as [Hlt | _]; [lia |].
    change (len (@nil byte)) with 0. now rewrite Z.add_0_r.
  - cbn [app decode_ascii_from].
    apply Z.ltb_lt in Hc. rewrite Hc, IH, len_cons.
    f_equal. lia.
Qed.

Lemma int16_le_spec (lo hi : byte) :
  -32768 <= int16_le lo hi < 32768
  /\ int16_le lo hi mod 65536 = int_of_byte lo + 256 * int_of_byte hi.
Proof.
  pose proof (int_of_byte_range lo). pose proof (int_of_byte_range hi).
  unfold int16_le. cbv zeta.
  destruct (Z.ltb_spec (int_of_byte lo + 256 * int_of_byte hi) 32768).
  - split; [lia |]. apply Z.mod_small. lia.
  - split; [lia |].
    replace (int_of_byte lo + 256 * int_of_byte hi - 65536)
      with (int_of_byte lo + 256 * int_of_byte hi + (-1) * 65536) by lia.
    rewrite Z.mod_add by lia. apply Z.mod_small. lia.
Qed.

Lemma unpack_hhhh_wrong_size (buffer : bytes) :
  len buffer <> 8 -> unpack_hhhh buffer = Raise StructError.
Proof.
  intros Hlen.
  do 8 (destruct buffer as [| ? buffer]; [reflexivity |]).
  destruct buffer; [| reflexivity].
  exfalso. apply Hlen. reflexivity.
Qed.

Section Auxiliary.

Context {Port : Type} `{Serial Port}.

(** When the device answers the version request with ok and a text of
    ASCII bytes that does not end in NUL, followed by any number of NUL
    bytes of padding, [get_version] returns that text: the padding is gone,
    and NUL bytes inside the text stay. *)
Theorem get_version_strips_padding (fuel : nat) (p p2 : Port) (text : bytes)
    (padding : nat) :
  Forall (fun b : byte => int_of_byte b < 128) text ->
  last text x01 <> x00 ->
  responds fuel CMD_VERSION [] p RESPONSE_OK (text ++ repeat x00 padding) p2 ->
  get_version fuel p = (Return (Text (string_of_list_byte text)), p2).
Proof.
  intros Hascii Hlast Hresp.
  rewrite (get_version_after_exchange _ _ _ _ _ Hresp).
  cbn [RESPONSE_OK Z.eqb].
  rewrite rstrip_nul_padding, (rstrip_nul_keeps _ Hlast).
  unfold decode_ascii. now rewrite decode_ascii_text.
Qed.

(** [get_version] fails its [assert] with the status when the status is not
    ok, and on ok fails to decode at the first byte above 127 that is left
    once the trailing NUL bytes are stripped. *)
Theorem get_version_failures (fuel : nat) (p p2 : Port) (status : Z)
    (resp : bytes) :
  responds fuel CMD_VERSION [] p status resp p2 ->
  (status <> RESPONSE_OK ->
   get_version fuel p = (Raise (AssertionError status), p2))
  /\ (status = RESPONSE_OK ->
      forall (pre : bytes) (b : byte) (post : bytes),
        rstrip_nul resp = pre ++ b :: post ->
        Forall (fun c : byte => int_of_byte c < 128) pre ->
        128 <= int_of_byte b ->
        get_version fuel p = (Return (UnicodeDecodeError (len pre) b), p2)).
Proof.
  intros Hresp. rewrite (get_version_after_exchange _ _ _ _ _ Hresp).
  split.
  - intros Hstatus. apply Z.eqb_neq in Hstatus. now rewrite Hstatus.
  - intros -> pre b post Hstrip Hpre Hb. cbn [RESPONSE_OK Z.eqb].
    unfold decode_ascii. rewrite Hstrip, (decode_ascii_stops _ _ _ Hpre Hb).
    reflexivity.
Qed.

(** [debug1] returns four integers exactly when the device answers ok with
    eight bytes: each integer is within the signed 16-bit range and is the
    little-endian reading of its two bytes.  Ok with any other number of
    bytes raises [struct.error], and a status other than ok fails the
    [assert]. *)
Theorem debug1_outcomes (fuel : nat) (p p2 : Port) (status : Z)
    (resp : bytes) :
  responds fuel CMD_DEBUG1 [] p status resp p2 ->
  (status = RESPONSE_OK ->
   forall a0 a1 b0 b1 c0 c1 d0 d1 : byte,
     resp = [a0; a1; b0; b1; c0; c1; d0; d1] ->
     exists a b c d : Z,
       debug1 fuel p = (Return (a, b, c, d), p2)
       /\ (-32768 <= a < 32768
           /\ a mod 65536 = int_of_byte a0 + 256 * int_of_byte a1)
       /\ (-32768 <= b < 32768
           /\ b mod 65536 = int_of_byte b0 + 256 * int_of_byte b1)
       /\ (-32768 <= c < 32768
           /\ c mod 65536 = int_of_byte c0 + 256 * int_of_byte c1)
       /\ (-32768 <= d < 32768
           /\ d mod 65536 = int_of_byte d0 + 256 * int_of_byte d1))
  /\ (status = RESPONSE_OK -> len resp <> 8 ->
      debug1 fuel p = (Raise StructError, p2))
  /\ (status <> RESPONSE_OK ->
      debug1 fuel p = (Raise (AssertionError status), p2)).
Proof.
  intros Hresp. rewrite (debug1_after_exchange _ _ _ _ _ Hresp).
  split; [| split].
  - intros -> a0 a1 b0 b1 c0 c1 d0 d1 ->.
    exists (int16_le a0 a1), (int16_le b0 b1), (int16_le c0 c1),
      (int16_le d0 d1).
    split; [reflexivity |].
    repeat split; apply int16_le_spec.
  - intros -> Hlen. cbn [RESPONSE_OK Z.eqb].
    now rewrite (unpack_hhhh_wrong_size _ Hlen).
  - intros Hstatus. apply Z.eqb_neq in Hstatus. now rewrite Hstatus.
Qed.

End Auxiliary.


(** ** What goes on the wire, on the scripted port *)

(** A request followed by the decoding of its response, whatever is made of
    the response afterwards without touching the port: one frame is
    written. *)
Lemma script_exchange_written (A : Type) (fuel : nat) (cmd_code : Z)
    (data : bytes) (k : Z * bytes -> M ScriptPort A) (p : ScriptPort)
    (bl bc : byte) :
  byte_of_int (len data + 1) = Some bl ->
  byte_of_int cmd_code = Some bc ->
  (forall (x : Z * bytes) (q : ScriptPort), snd (k x q) = q) ->
  written (log (snd (bind (_send cmd_code data)
                       (fun _ => bind (_recv fuel) k) p)))
  = written (log p) ++ bl :: bc :: data.
Proof.
  intros Hbl Hbc Hk. unfold bind at 1.
  rewrite (script_send _ _ _ _ _ Hbl Hbc).
  pose proof (script_recv_written fuel
                (mkPort (pending p) (log p ++ [EvWrite (bl :: bc :: data)])))
    as Hrecv.
  cbn [log] in Hrecv. rewrite written_app in Hrecv.
  cbn [written] in Hrecv. rewrite app_nil_r in Hrecv.
  unfold bind.
  destruct (_recv fuel
              (mkPort (pending p) (log p ++ [EvWrite (bl :: bc :: data)])))
    as [[x | e |] p2]; cbn [snd] in *; [rewrite Hk |..]; exact Hrecv.
Qed.

(** The same exchange when the device stays silent: the request is written
    once, the read of the length byte comes back empty once, and [Timeout]
    is raised. *)
Lemma script_exchange_silent (A : Type) (fuel : nat) (cmd_code : Z)
    (data : bytes) (k : Z * bytes -> M ScriptPort A) (rest : list bytes)
    (l : list io_event) (bl bc : byte) :
  byte_of_int (len data + 1) = Some bl ->
  byte_of_int cmd_code = Some bc ->
  bind (_send cmd_code data) (fun _ => bind (_recv fuel) k)
    (mkPort ([] :: rest) l)
  = (Raise Timeout,
     mkPort rest (l ++ [EvWrite (bl :: bc :: data); EvRead 1 []])).
Proof.
  intros Hbl Hbc. unfold bind at 1.
  rewrite (script_send _ _ _ _ _ Hbl Hbc). cbn [pending log].
  unfold bind, _recv. cbn [sp_read ScriptSerial]. unfold script_read.
  cbn [pending log firstn skipn requeue raise].
  rewrite firstn_nil, skipn_nil. cbn [requeue].
  rewrite <- app_assoc. reflexivity.
Qed.

Ltac keeps_port :=
  intros [? ?] ?;
  repeat match goal with
         | |- context [if ?b then _ else _] => destruct b
         end;
  unfold raise_BusError;
  try match goal with
      | |- context [BusError__init__ ?m] => destruct (BusError__init__ m)
      end;
  reflexivity.

(** [write] sends one frame, whatever the device answers: the length byte,
    the write command, the address, then the payload. *)
Theorem write_request_frame (fuel : nat) (address : Z) (payload : bytes)
    (p : ScriptPort) :
  0 <= address <= 255 ->
  len payload <= 253 ->
  map int_of_byte (written (log (snd (write fuel address payload p))))
  = map int_of_byte (written (log p))
    ++ [len payload + 2; CMD_WRITE; address] ++ map int_of_byte payload.
Proof.
  intros Haddr Hlen. pose proof (len_nonneg payload) as Hpos.
  destruct (byte_of_int_some address Haddr) as [ba Hba].
  destruct (byte_of_int_some (len ([ba] ++ payload) + 1)) as [bl Hbl].
  { rewrite len_app. change (len [ba]) with 1. lia. }
  destruct (byte_of_int_some CMD_WRITE) as [bc Hbc];
    [unfold CMD_WRITE; lia |].
  unfold write, bind at 1, lift. cbn [pack pack_field rbind].
  rewrite Hba. cbn [rbind].
  rewrite (script_exchange_written _ _ _ _ _ _ _ _ Hbl Hbc) by keeps_port.
  rewrite map_app. cbn [map app].
  rewrite (int_of_byte_of_int _ _ Hbl), (int_of_byte_of_int _ _ Hbc),
    (int_of_byte_of_int _ _ Hba).
  cbn [app]. rewrite len_cons.
  replace (1 + len payload + 1) with (len payload + 2) by lia.
  reflexivity.
Qed.

(** [read] sends one frame, whatever the device answers: length 3, the
    read command, the address and the read size. *)
Theorem read_request_frame (fuel : nat) (address read_size : Z)
    (p : ScriptPort) :
  0 <= address <= 255 ->
  0 <= read_size <= 255 ->
  map int_of_byte (written (log (snd (read fuel address read_size p))))
  = map int_of_byte (written (log p)) ++ [3; CMD_READ; address; read_size].
Proof.
  intros Haddr Hsize.
  destruct (byte_of_int_some address Haddr) as [ba Hba].
  destruct (byte_of_int_some read_size Hsize) as [br Hbr].
  destruct (byte_of_int_some (len [ba; br] + 1)) as [bl Hbl];
    [change (len [ba; br]) with 2; lia |].
  destruct (byte_of_int_some CMD_READ) as [bc Hbc]; [unfold CMD_READ; lia |].
  unfold read, bind at 1, lift. rewrite (pack_BB _ _ _ _ Hba Hbr).
  rewrite (script_exchange_written _ _ _ _ _ _ _ _ Hbl Hbc) by keeps_port.
  rewrite map_app. cbn [map app].
  rewrite (int_of_byte_of_int _ _ Hbl), (int_of_byte_of_int _ _ Hbc),
    (int_of_byte_of_int _ _ Hba), (int_of_byte_of_int _ _ Hbr).
  reflexivity.
Qed.

(** The pin calls send one frame when they accept their argument: length
    3, the command, the pin number and the device code the argument
    resolved to.  The version and debug requests are the bare two-byte
    frames of their commands. *)
Theorem auxiliary_request_frames (fuel : nat) (pin_number : Z) (arg : pyval)
    (code : Z) (p : ScriptPort) :
  (0 <= pin_number <= 255 ->
   dict_get py_eq pin_mode_dict arg = Some code ->
   map int_of_byte (written (log (snd (set_pin_mode fuel pin_number arg p))))
   = map int_of_byte (written (log p))
     ++ [3; CMD_SET_PIN_MODE; pin_number; PIN_MODE_DIGITAL_OUT])
  /\ (0 <= pin_number <= 255 ->
      dict_get py_eq pin_status_dict arg = Some code ->
      map int_of_byte
        (written (log (snd (digital_write fuel pin_number arg p))))
      = map int_of_byte (written (log p))
        ++ [3; CMD_DIGITAL_WRITE; pin_number; code])
  /\ map int_of_byte (written (log (snd (get_version fuel p))))
     = map int_of_byte (written (log p)) ++ [1; CMD_VERSION]
  /\ map int_of_byte (written (log (snd (debug1 fuel p))))
     = map int_of_byte (written (log p)) ++ [1; CMD_DEBUG1].
Proof.
  split; [| split; [| split]].
  - intros Hpin Hcode.
    assert (code = PIN_MODE_DIGITAL_OUT) as ->.
    { destruct arg as [s | [|] | z];
        cbn [dict_get pin_mode_dict py_eq] in Hcode;
        repeat match type of Hcode with
               | context [if ?b then _ else _] => destruct b
               end; congruence. }
    destruct (byte_of_int_some pin_number Hpin) as [bp Hbp].
    unfold set_pin_mode. rewrite Hcode. unfold bind at 1, lift.
    rewrite (pack_BB pin_number PIN_MODE_DIGITAL_OUT bp x01 Hbp eq_refl).
    rewrite (script_exchange_written _ _ CMD_SET_PIN_MODE [bp; x01] _ _ x03 x07
               eq_refl eq_refl) by keeps_port.
    rewrite map_app. cbn [map app].
    now rewrite (int_of_byte_of_int _ _ Hbp).
  - intros Hpin Hcode.
    destruct (byte_of_int_some pin_number Hpin) as [bp Hbp].
    destruct (byte_of_int_some code) as [bs Hbs].
    { apply pin_status_accepted in Hcode.
      unfold PIN_STATUS_HIGH, PIN_STATUS_LOW, PIN_STATUS_TOGGLE in Hcode.
      lia. }
    unfold digital_write. rewrite Hcode. unfold bind at 1, lift.
    rewrite (pack_BB _ _ _ _ Hbp Hbs).
    rewrite (script_exchange_written _ _ CMD_DIGITAL_WRITE [bp; bs] _ _ x03 x08
               eq_refl eq_refl) by keeps_port.
    rewrite map_app. cbn [map app].
    now rewrite (int_of_byte_of_int _ _ Hbp), (int_of_byte_of_int _ _ Hbs).
  - unfold get_version.
    rewrite (script_exchange_written _ _ CMD_VERSION [] _ _ x01 x00
               eq_refl eq_refl) by keeps_port.
    now rewrite map_app.
  - unfold debug1.
    rewrite (script_exchange_written _ _ CMD_DEBUG1 [] _ _ x01 x33
               eq_refl eq_refl).
    + now rewrite map_app.
    + intros [? ?] ?.
      repeat match goal with
             | |- context [if ?b then _ else _] => destruct b
             end; reflexivity.
Qed.

(** On a device that does not answer, [write], [read] and [transaction]
    each write their request once, try a single read and raise [Timeout]:
    nothing is sent again. *)
Theorem silent_device_times_out (fuel : nat) (address read_size : Z)
    (payload : bytes) (rest : list bytes) (l : list io_event) :
  0 <= address <= 255 ->
  0 <= read_size <= 255 ->
  (len payload <= 253 ->
   exists frame : bytes,
     map int_of_byte frame
     = [len payload + 2; CMD_WRITE; address] ++ map int_of_byte payload
     /\ write fuel address payload (mkPort ([] :: rest) l)
        = (Raise Timeout, mkPort rest (l ++ [EvWrite frame; EvRead 1 []])))
  /\ (exists frame : bytes,
         map int_of_byte frame = [3; CMD_READ; address; read_size]
         /\ read fuel address read_size (mkPort ([] :: rest) l)
            = (Raise Timeout, mkPort rest (l ++ [EvWrite frame; EvRead 1 []])))
  /\ (1 <= len payload <= 252 ->
      exists frame : bytes,
        map int_of_byte frame
        = [len payload + 3; CMD_TRANSACTION; address; read_size]
          ++ map int_of_byte payload
        /\ transaction fuel address payload read_size (mkPort ([] :: rest) l)
           = (Raise Timeout,
              mkPort rest (l ++ [EvWrite frame; EvRead 1 []]))).
Proof.
  intros Haddr Hsize. pose proof (len_nonneg payload) as Hpos.
  destruct (byte_of_int_some address Haddr) as [ba Hba].
  destruct (byte_of_int_some read_size Hsize) as [br Hbr].
  split; [| split].
  - intros Hlen.
    destruct (byte_of_int_some (len (ba :: payload) + 1)) as [bl Hbl];
      [rewrite len_cons; lia |].
    exists (bl :: x03 :: ba :: payload). split.
    + cbn [map app].
      rewrite (int_of_byte_of_int _ _ Hbl), (int_of_byte_of_int _ _ Hba),
        len_cons.
      replace (1 + len payload + 1) with (len payload + 2) by lia.
      reflexivity.
    + unfold write, bind at 1, lift. cbn [pack pack_field rbind].
      rewrite Hba. cbn [rbind app].
      apply (script_exchange_silent _ _ CMD_WRITE (ba :: payload) _ _ _ _ _
               Hbl eq_refl).
  - exists [x03; x04; ba; br]. split.
    + cbn [map].
      now rewrite (int_of_byte_of_int _ _ Hba), (int_of_byte_of_int _ _ Hbr).
    + unfold read, bind at 1, lift. rewrite (pack_BB _ _ _ _ Hba Hbr).
      apply (script_exchange_silent _ _ CMD_READ [ba; br] _ _ _ x03 x04
               eq_refl eq_refl).
  - intros Hlen.
    destruct (byte_of_int_some (len (ba :: br :: payload) + 1)) as [bl Hbl];
      [rewrite !len_cons; lia |].
    exists (bl :: x05 :: ba :: br :: payload). split.
    + cbn [map app].
      rewrite (int_of_byte_of_int _ _ Hbl), (int_of_byte_of_int _ _ Hba),
        (int_of_byte_of_int _ _ Hbr), !len_cons.
      replace (1 + (1 + len payload) + 1) with (len payload + 3) by lia.
      reflexivity.
    + unfold transaction.
      destruct (Z.ltb_spec (len payload) 1) as [Hlt | _]; [lia |].
      unfold bind at 1, lift. rewrite (pack_BB _ _ _ _ Hba Hbr).
      cbn [app].
      apply (script_exchange_silent _ _ CMD_TRANSACTION (ba :: br :: payload)
               _ _ _ _ _ Hbl eq_refl).
Qed.

(** Constructing the I2C-master session first puts DTR low, then RTS low,
    then writes the init frame -- mode 1, a zero byte and the clock of 400
    as two little-endian bytes -- and after that only reads, at most 256
    times, whatever the device answers. *)
Theorem init_sequence (fuel : nat) (p : ScriptPort) :
  exists tl : list io_event,
    log (snd (BusAdapterI2CMaster__init__ fuel p))
    = log p
      ++ [EvSetDTR false; EvSetRTS false;
          EvWrite [x05; x01; x01; x00; x90; x01]]
      ++ tl
    /\ reads tl = List.length tl
    /\ (List.length tl <= 256)%nat.
Proof.
  unfold BusAdapterI2CMaster__init__, bind at 1, BusAdapter__init__.
  cbn [sp_setDTR sp_setRTS ScriptSerial pending log].
  unfold bind at 1, lift.
  change (pack [fmt_B; fmt_B; fmt_H] [MODE_I2C_MASTER; 0; 400])
    with (@Return bytes [x01; x00; x90; x01]).
  unfold bind at 1.
  rewrite (script_send CMD_INIT [x01; x00; x90; x01] _ x05 x01
             eq_refl eq_refl).
  cbn [pending log].
  destruct (script_recv_log fuel
              (mkPort (pending p)
                 (((log p ++ [EvSetDTR false]) ++ [EvSetRTS false])
                    ++ [EvWrite [x05; x01; x01; x00; x90; x01]])))
    as (tl & Htl & Hreads & Hcount).
  exists tl. split; [| split; [exact Hreads | exact Hcount]].
  cbn [log] in Htl. unfold bind.
  destruct (_recv fuel _) as [[[status payload] | e |] p2]; cbn [snd] in *;
    [destruct (negb (status =? RESPONSE_OK)
               && match payload with [] => false | _ :: _ => true end)
    |..];
    cbn [snd raise ret]; rewrite Htl, <- !app_assoc; reflexivity.
Qed.


(** ** The further properties on concrete exchanges *)

Lemma send_frame_bounds_witness :
  (exists bl bc : byte,
      int_of_byte bl = len [x50] + 1
      /\ int_of_byte bc = CMD_WRITE
      /\ _send CMD_WRITE [x50] (mkPort [] [])
         = (Return tt, sp_write (mkPort [] []) [bl; bc; x50]))
  /\ _send 256 [x50] (mkPort [] []) = (Raise StructError, mkPort [] []).
Proof.
  split.
  - apply (proj1 (send_frame_bounds CMD_WRITE [x50] (mkPort [] []))).
    + unfold CMD_WRITE. lia.
    + unfold len. cbn [List.length]. lia.
  - apply (proj2 (send_frame_bounds 256 [x50] (mkPort [] []))). lia.
Defined.

Lemma recv_empty_frame_witness :
  _recv 255 (mkPort [[x00]; [x01; x00]] [])
  = (Raise IndexError, snd (sp_read (mkPort [[x00]; [x01; x00]] []) 1)).
Proof.
  apply (recv_empty_frame 255 (mkPort [[x00]; [x01; x00]] []) x00 []);
    reflexivity.
Defined.

Lemma recv_result_bounds_witness :
  0 <= 0 <= 255
  /\ len [x09] <= 254
  /\ exists (b : byte) (more : bytes),
       fst (sp_read (mkPort [[x02; x00; x09]] []) 1) = b :: more
       /\ len [x09] + 1 = int_of_byte b.
Proof.
  apply (recv_result_bounds 255 (mkPort [[x02; x00; x09]] [])
           (snd (_recv 255 (mkPort [[x02; x00; x09]] []))) 0 [x09]).
  reflexivity.
Defined.

Lemma recv_leaves_rest_witness :
  exists (chunks' : list bytes) (l' : list io_event),
    _recv 255 (mkPort ([[x02; x00]; [x09; x01]; [x06]] ++ []) [])
    = (Return (int_of_byte x00, [x09]), mkPort (chunks' ++ []) l')
    /\ Forall (fun c : bytes => c <> []) chunks'
    /\ List.concat chunks' = [x01; x06].
Proof.
  apply (recv_leaves_rest [[x02; x00]; [x09; x01]; [x06]] x02 x00 [x09]
           [x01; x06] [] [] 255).
  - repeat constructor; discriminate.
  - reflexivity.
  - reflexivity.
  - vm_compute. discriminate.
Defined.

Lemma recv_twice_witness :
  exists l' : list io_event,
    bind (_recv 255) (fun first =>
      bind (_recv 255) (fun second => ret (first, second)))
      (mkPort [[x02; x00]; [x09; x01]; [x06]] [])
    = (Return ((int_of_byte x00, [x09]), (int_of_byte x06, [])),
       mkPort [] l').
Proof.
  apply (recv_twice [[x02; x00]; [x09; x01]; [x06]] x02 x00 x01 x06 [x09] []
           [] 255).
  - repeat constructor; discriminate.
  - reflexivity.
  - reflexivity.
  - reflexivity.
  - lia.
Defined.

Lemma i2c_argument_bounds_witness :
  write 255 256 [x01] (mkPort [[x01; x00]] [])
  = (Raise StructError, mkPort [[x01; x00]] [])
  /\ read 255 80 256 (mkPort [[x01; x00]] [])
     = (Raise StructError, mkPort [[x01; x00]] [])
  /\ transaction 255 (-1) [x01] 1 (mkPort [[x01; x00]] [])
     = (Raise StructError, mkPort [[x01; x00]] []).
Proof.
  split; [| split].
  - apply (proj1 (i2c_argument_bounds 255 256 0 [x01]
                    (mkPort [[x01; x00]] []))). lia.
  - apply (proj1 (proj2 (i2c_argument_bounds 255 80 256 [x01]
                           (mkPort [[x01; x00]] [])))). lia.
  - apply (proj2 (proj2 (i2c_argument_bounds 255 (-1) 1 [x01]
                           (mkPort [[x01; x00]] [])))).
    + unfold len. cbn [List.length]. lia.
    + lia.
Defined.

Lemma read_error_statuses_witness :
  read 255 80 4 (mkPort [[x01; x06]] [])
  = (Raise (BusError "nack on address"),
     snd (_recv 255
            (snd (_send CMD_READ [x50; x04] (mkPort [[x01; x06]] []))))).
Proof.
  apply (read_error_statuses 255 80 4 [x50; x04] (mkPort [[x01; x06]] []) _
           RESPONSE_NACK_ON_ADDRESS []).
  - reflexivity.
  - exists (snd (_send CMD_READ [x50; x04] (mkPort [[x01; x06]] []))).
    split; reflexivity.
  - discriminate.
Defined.

Lemma transaction_error_statuses_witness :
  transaction 255 80 [x07] 1 (mkPort [[x01; x04]] [])
  = (Raise ProtocolError,
     snd (_recv 255
            (snd (_send CMD_TRANSACTION [x50; x01; x07]
                    (mkPort [[x01; x04]] []))))).
Proof.
  apply (transaction_error_statuses 255 80 1 [x07] [x50; x01]
           (mkPort [[x01; x04]] []) _ RESPONSE_BAD_PARAMETERS []).
  - unfold len. cbn [List.length]. lia.
  - reflexivity.
  - exists (snd (_send CMD_TRANSACTION [x50; x01; x07]
                   (mkPort [[x01; x04]] []))).
    split; reflexivity.
  - discriminate.
Defined.

Lemma transaction_ok_exact_length_witness :
  transaction 255 80 [x07] 4 (mkPort [[x04; x00; x0a; x0b; x0c]] [])
  = (Raise (BusError "short read; got 3 bytes, expected 4"),
     snd (_recv 255
            (snd (_send CMD_TRANSACTION [x50; x04; x07]
                    (mkPort [[x04; x00; x0a; x0b; x0c]] []))))).
Proof.
  apply (proj2 (transaction_ok_exact_length 255 80 4 [x07] [x50; x04]
                  (mkPort [[x04; x00; x0a; x0b; x0c]] []) _ [x0a; x0b; x0c]
                  ltac:(unfold len; cbn [List.length]; lia) eq_refl
                  (ex_intro _
                     (snd (_send CMD_TRANSACTION [x50; x04; x07]
                             (mkPort [[x04; x00; x0a; x0b; x0c]] [])))
                     (conj eq_refl eq_refl)))).
  vm_compute. discriminate.
Defined.

Lemma pin_calls_assert_ok_witness :
  digital_write 255 3 (PBool true) (mkPort [[x01; x06]] [])
  = (Raise (AssertionError RESPONSE_NACK_ON_ADDRESS),
     snd (_recv 255
            (snd (_send CMD_DIGITAL_WRITE [x03; x10]
                    (mkPort [[x01; x06]] []))))).
Proof.
  assert (responds 255 CMD_DIGITAL_WRITE [x03; x10] (mkPort [[x01; x06]] [])
            RESPONSE_NACK_ON_ADDRESS []
            (snd (_recv 255
                    (snd (_send CMD_DIGITAL_WRITE [x03; x10]
                            (mkPort [[x01; x06]] []))))))
    as Hresp.
  { exists (snd (_send CMD_DIGITAL_WRITE [x03; x10]
                   (mkPort [[x01; x06]] []))).
    split; reflexivity. }
  apply (proj2 (proj2 (pin_calls_assert_ok 255 3 (PBool true) PIN_STATUS_HIGH
                         [x03; x10] (mkPort [[x01; x06]] []) _
                         RESPONSE_NACK_ON_ADDRESS [] eq_refl)
                  eq_refl Hresp)).
  discriminate.
Defined.

Lemma set_pin_mode_closed_set_witness :
  set_pin_mode 255 3 (PStr "digital_in") (mkPort [[x01; x00]] [])
  = (Raise (ValueError "wrong pin mode {!r}" [PStr "digital_in"]),
     mkPort [[x01; x00]] []).
Proof.
  apply (proj2 (set_pin_mode_closed_set 255 3 (PStr "digital_in")
                  (mkPort [[x01; x00]] []))); discriminate.
Defined.

Lemma get_version_strips_padding_witness :
  get_version 255
    (mkPort [[x09; x00; "1"; "."; "2"; "."; "0"; x00; x00; x00]%byte] [])
  = (Return (Text "1.2.0"),
     snd (_recv 255
            (snd (_send CMD_VERSION []
                    (mkPort [[x09; x00; "1"; "."; "2"; "."; "0";
                              x00; x00; x00]%byte] []))))).
Proof.
  apply (get_version_strips_padding 255 _ _ ["1"; "."; "2"; "."; "0"]%byte 3).
  - repeat constructor.
  - discriminate.
  - exists (snd (_send CMD_VERSION []
                   (mkPort [[x09; x00; "1"; "."; "2"; "."; "0";
                             x00; x00; x00]%byte] []))).
    split; reflexivity.
Defined.

Lemma get_version_failures_witness :
  get_version 255 (mkPort [[x01; x06]] [])
  = (Raise (AssertionError RESPONSE_NACK_ON_ADDRESS),
     snd (_recv 255 (snd (_send CMD_VERSION [] (mkPort [[x01; x06]] []))))).
Proof.
  assert (responds 255 CMD_VERSION [] (mkPort [[x01; x06]] [])
            RESPONSE_NACK_ON_ADDRESS []
            (snd (_recv 255
                    (snd (_send CMD_VERSION [] (mkPort [[x01; x06]] []))))))
    as Hresp.
  { exists (snd (_send CMD_VERSION [] (mkPort [[x01; x06]] []))).
    split; reflexivity. }
  apply (proj1 (get_version_failures 255 (mkPort [[x01; x06]] []) _
                  RESPONSE_NACK_ON_ADDRESS [] Hresp)).
  discriminate.
Defined.

Lemma debug1_outcomes_witness :
  exists a b c d : Z,
    debug1 255
      (mkPort [[x09; x00; x01; x00; xff; xff; x00; x80]; [xff; x7f]] [])
    = (Return (a, b, c, d),
       snd (_recv 255
              (snd (_send CMD_DEBUG1 []
                      (mkPort [[x09; x00; x01; x00; xff; xff; x00; x80];
                               [xff; x7f]] [])))))
    /\ (-32768 <= a < 32768
        /\ a mod 65536 = int_of_byte x01 + 256 * int_of_byte x00)
    /\ (-32768 <= b < 32768
        /\ b mod 65536 = int_of_byte xff + 256 * int_of_byte xff)
    /\ (-32768 <= c < 32768
        /\ c mod 65536 = int_of_byte x00 + 256 * int_of_byte x80)
    /\ (-32768 <= d < 32768
        /\ d mod 65536 = int_of_byte xff + 256 * int_of_byte x7f).
Proof.
  assert (responds 255 CMD_DEBUG1 []
            (mkPort [[x09; x00; x01; x00; xff; xff; x00; x80]; [xff; x7f]] [])
            RESPONSE_OK [x01; x00; xff; xff; x00; x80; xff; x7f]
            (snd (_recv 255
                    (snd (_send CMD_DEBUG1 []
                            (mkPort [[x09; x00; x01; x00; xff; xff; x00; x80];
                                     [xff; x7f]] []))))))
    as Hresp.
  { exists (snd (_send CMD_DEBUG1 []
                   (mkPort [[x09; x00; x01; x00; xff; xff; x00; x80];
                            [xff; x7f]] []))).
    split; reflexivity. }
  exact (proj1 (debug1_outcomes 255 _ _ RESPONSE_OK _ Hresp)
           eq_refl x01 x00 xff xff x00 x80 xff x7f eq_refl).
Defined.

Lemma write_request_frame_witness :
  map int_of_byte
    (written (log (snd (write 255 80 [x01; x02] (mkPort [[x01; x00]] [])))))
  = map int_of_byte (written [])
    ++ [len [x01; x02] + 2; CMD_WRITE; 80] ++ map int_of_byte [x01; x02].
Proof.
  apply (write_request_frame 255 80 [x01; x02] (mkPort [[x01; x00]] [])).
  - lia.
  - unfold len. cbn [List.length]. lia.
Defined.

Lemma read_request_frame_witness :
  map int_of_byte
    (written (log (snd (read 255 80 4 (mkPort [[x01; x06]] [])))))
  = map int_of_byte (written []) ++ [3; CMD_READ; 80; 4].
Proof.
  apply (read_request_frame 255 80 4 (mkPort [[x01; x06]] [])); lia.
Defined.

Lemma auxiliary_request_frames_witness :
  map int_of_byte
    (written (log (snd (digital_write 255 3 (PStr "toggle")
                          (mkPort [[x01; x00]] [])))))
  = map int_of_byte (written [])
    ++ [3; CMD_DIGITAL_WRITE; 3; PIN_STATUS_TOGGLE].
Proof.
  apply (proj1 (proj2 (auxiliary_request_frames 255 3 (PStr "toggle")
                         PIN_STATUS_TOGGLE (mkPort [[x01; x00]] [])))).
  - lia.
  - reflexivity.
Defined.

Lemma silent_device_times_out_witness :
  exists frame : bytes,
    map int_of_byte frame = [3; CMD_READ; 80; 4]
    /\ read 255 80 4 (mkPort [[]; [x01; x00]] [])
       = (Raise Timeout,
          mkPort [[x01; x00]] ([] ++ [EvWrite frame; EvRead 1 []])).
Proof.
  apply (proj1 (proj2 (silent_device_times_out 255 80 4 [] [[x01; x00]] []
                         ltac:(lia) ltac:(lia)))).
Defined.
